(** * The [vibe_recommend] HTTP function of [lib/functions/main.py]

    A shallow embedding of the request handler and of its cache sweeper,
    followed by the properties the specification states about them.

    - Python values are the inductive [json]; a [dict] read from JSON is an
      association list with distinct keys.
    - Python floats and numpy float64 scalars are Rocq's binary64 [float];
      the float literals of the source are written as they are.
    - [datetime] values are microseconds on the integer line, so that
      [now - ts > timedelta(minutes=10)] is integer arithmetic.
    - The process-wide [recommendation_cache] is a [gmap string cache_entry].
    - The handler runs in a state-and-exception monad [M] whose state holds
      the cache and the log of calls made to the external collaborators
      (Firestore and the Spotify client), and whose outcomes distinguish a
      [return] statement from a raised exception.
    - The answers of the collaborators are the fields of a [world]; the
      built-ins and numeric libraries the handler calls ([str.lower],
      [str()], [round], [numpy.mean], sklearn's [cosine_similarity]) are
      the variables of the section.
    - What the catalog answers with is typed: an audio-feature entry and a
      track are records with the fields the handler reads, so an answer that
      lacks one of these fields is outside the model. *)

From Stdlib Require Import ZArith Floats Ascii.
From stdpp Require Import gmap strings list fin_maps sorting pretty.

Set Warnings "-inexact-float,-register-all".

(* ===================================================================== *)
(** * Python values *)
(* ===================================================================== *)

Inductive json : Type :=
| JNull
| JBool (b : bool)
| JInt (n : Z)
| JFloat (x : float)
| JStr (s : string)
| JList (items : list json)
| JDict (fields : list (string * json)).

(** [bool(v)], the test behind [if v], [not v] and [v or w]. *)
Definition truthy (v : json) : bool :=
  match v with
  | JNull => false
  | JBool b => b
  | JInt n => negb (n =? 0)%Z
  | JFloat x => negb (x =? 0)%float
  | JStr s => match s with EmptyString => false | String _ _ => true end
  | JList items => match items with [] => false | _ :: _ => true end
  | JDict fields => match fields with [] => false | _ :: _ => true end
  end.

(** [type(v).__name__], as it appears in the message of an AttributeError. *)
Definition type_name (v : json) : string :=
  match v with
  | JNull => "NoneType"
  | JBool _ => "bool"
  | JInt _ => "int"
  | JFloat _ => "float"
  | JStr _ => "str"
  | JList _ => "list"
  | JDict _ => "dict"
  end.

Fixpoint dict_lookup (fields : list (string * json)) (key : string) : option json :=
  match fields with
  | [] => None
  | (k, v) :: rest => if String.eqb k key then Some v else dict_lookup rest key
  end.

(** An exception is represented by [str(e)], the only thing the handler
    reads from it. *)
Definition exn : Type := string.

Inductive result (A : Type) : Type :=
| Ok (a : A)
| Err (e : exn).
Arguments Ok {A} a.
Arguments Err {A} e.

Definition result_bind {A B : Type} (r : result A) (k : A -> result B) : result B :=
  match r with
  | Ok a => k a
  | Err e => Err e
  end.

Definition attribute_error (v : json) (attr : string) : exn :=
  "'" +:+ type_name v +:+ "' object has no attribute '" +:+ attr +:+ "'".

Definition index_error : exn := "list index out of range".

(** [str(KeyError(key))] is the [repr] of the key. *)
Definition key_error (key : string) : exn := "'" +:+ key +:+ "'".

(** [v.get(key, default)]: only a [dict] has the method. *)
Definition method_get (v : json) (key : string) (fallback : json) : result json :=
  match v with
  | JDict fields => Ok (default fallback (dict_lookup fields key))
  | _ => Err (attribute_error v "get")
  end.

(** [l[i]] on a list. *)
Definition list_index {A : Type} (l : list A) (i : nat) : result A :=
  match l !! i with
  | Some x => Ok x
  | None => Err index_error
  end.

(* ===================================================================== *)
(** * [sorted] *)
(* ===================================================================== *)

(** [list.sort] compares with [<] only and is stable.  On the short lists of
    this handler CPython runs its binary insertion sort: each element, from
    left to right, is placed before the first element of the sorted prefix
    that it is smaller than, hence after the elements it ties with. *)
Fixpoint insert_sorted {A K : Type} (lt : K -> K -> bool) (key : A -> K)
    (x : A) (run : list A) : list A :=
  match run with
  | [] => [x]
  | y :: rest =>
      if lt (key x) (key y) then x :: y :: rest
      else y :: insert_sorted lt key x rest
  end.

Definition list_sort {A K : Type} (lt : K -> K -> bool) (key : A -> K)
    (l : list A) : list A :=
  fold_left (fun run x => insert_sorted lt key x run) l [].

(** [sorted(l, key=key, reverse=reverse)]: with [reverse] the list is
    reversed, sorted, and reversed again, which keeps ties in their original
    order. *)
Definition sorted {A K : Type} (lt : K -> K -> bool) (key : A -> K)
    (reverse : bool) (l : list A) : list A :=
  if reverse then list.reverse (list_sort lt key (list.reverse l))
  else list_sort lt key l.

(** Two keys tie when neither is smaller than the other. *)
Definition tie {K : Type} (lt : K -> K -> bool) (a b : K) : bool :=
  negb (lt a b) && negb (lt b a).

(** No later element is smaller than an earlier one. *)
Definition ascending {A K : Type} (lt : K -> K -> bool) (key : A -> K)
    : list A -> Prop :=
  StronglySorted (fun a b => lt (key b) (key a) = false).

(** No later element is greater than an earlier one. *)
Definition descending {A K : Type} (lt : K -> K -> bool) (key : A -> K)
    : list A -> Prop :=
  StronglySorted (fun a b => lt (key a) (key b) = false).

(** The elements of [l] that tie with the key [k], in their order. *)
Definition ties {A K : Type} (lt : K -> K -> bool) (key : A -> K) (k : K)
    (l : list A) : list A :=
  List.filter (fun a => tie lt (key a) k) l.

Definition good_keys {A K : Type} (key : A -> K) (good : K -> Prop)
    (l : list A) : Prop :=
  Forall (fun a => good (key a)) l.

(* ===================================================================== *)
(** * The order of binary64 floats *)
(* ===================================================================== *)

(** A float that is not NaN has a rank in the lexicographic order of integer
    triples; [<] on floats is the order of the ranks. *)
Definition sf_rank (x : spec_float) : Z * Z * Z :=
  match x with
  | S754_zero _ => (0, 0, 0)%Z
  | S754_infinity s => if s then (-2, 0, 0)%Z else (2, 0, 0)%Z
  | S754_nan => (3, 0, 0)%Z
  | S754_finite s m e =>
      if s then (-1, - e, - Z.pos m)%Z else (1, e, Z.pos m)%Z
  end.

Definition rank_lt (a b : Z * Z * Z) : Prop :=
  let '(a1, a2, a3) := a in
  let '(b1, b2, b3) := b in
  (a1 < b1 \/ (a1 = b1 /\ (a2 < b2 \/ (a2 = b2 /\ a3 < b3))))%Z.

Definition not_nan (x : float) : Prop := is_nan x = false.

(* ===================================================================== *)
(** * Data of the handler *)
(* ===================================================================== *)

(** One entry of the list [sp.audio_features] answers with; the handler
    reads three of its fields. *)
Record audio_features : Type := AudioFeatures {
  energy : float;
  valence : float;
  danceability : float
}.

(** One element of [recs['tracks']], with the fields the handler reads:
    [t['artists']] as the list of the artists' names and
    [t['album']['images']] as the list of the images' urls. *)
Record track : Type := Track {
  track_id : json;
  track_name : string;
  track_artists : list string;
  track_images : list string;
  track_uri : string;
  track_preview_url : option string
}.

Record scored_track : Type := ScoredTrack {
  st_id : json;
  st_name : string;
  st_artist : string;
  st_image : string;
  st_uri : string;
  st_preview_url : option string;
  score : float
}.

(** The first component of the tuples the handler returns. *)
Inductive body : Type :=
| EmptyBody
| ErrorBody (error : string)
| RecommendationsBody (recommendations : list scored_track).

Record response : Type := Response {
  payload : body;
  status : Z;
  headers : list (string * string)
}.

Record Request : Type := MkRequest {
  method : string;
  (** the value of [request.get_json(silent=True)]: [None] for a missing
      body or one that is not JSON *)
  get_json : option json
}.

Record cache_entry : Type := CacheEntry {
  data : body;
  timestamp : Z
}.

(** The calls that leave the process. *)
Inductive call : Type :=
| HistoryQuery (user_id : json)
| Search (q : string)
| AudioFeaturesFetch (ids : list json)
| RecommendationsFetch (seed_tracks : list json).

(** What the outside answers during one request.  The two readings of
    [datetime.now()] and the two audio-feature fetches are separate fields:
    nothing ties the second answer to the first. *)
Record world : Type := World {
  now_sweep : Z;
  now_store : Z;
  (** the documents of [history_ref.order_by(...).limit(20).stream()], each
      as its [to_dict()] *)
  history_docs : json -> result (list (list (string * json)));
  (** [[t['id'] for t in sp.search(q, type='track', limit=5)['tracks']['items']]] *)
  search_ids : string -> result (list json);
  seed_audio_features : list json -> result (list (option audio_features));
  (** [sp.recommendations(seed_tracks, limit=20)['tracks']] *)
  recommendations_tracks : list json -> result (list track);
  rec_audio_features : list json -> result (list (option audio_features))
}.

Record state : Type := State {
  recommendation_cache : gmap string cache_entry;
  external_calls : list call
}.

(* ===================================================================== *)
(** * The monad of the handler *)
(* ===================================================================== *)

Inductive outcome (A : Type) : Type :=
| Normal (a : A)
| Returned (r : response)
| Raised (e : exn).
Arguments Normal {A} a.
Arguments Returned {A} r.
Arguments Raised {A} e.

Definition M (A : Type) : Type := state -> outcome A * state.

Definition ret {A : Type} (a : A) : M A := fun s => (Normal a, s).

Definition bind {A B : Type} (m : M A) (k : A -> M B) : M B :=
  fun s =>
    match m s with
    | (Normal a, s') => k a s'
    | (Returned r, s') => (Returned r, s')
    | (Raised e, s') => (Raised e, s')
    end.

Notation "x <- m ;; k" := (bind m (fun x => k))
  (at level 100, m at next level, right associativity, only parsing).
Notation "m ;;; k" := (bind m (fun _ => k))
  (at level 100, right associativity, only parsing).

(** [return r] *)
Definition return_ {A : Type} (r : response) : M A := fun s => (Returned r, s).

(** [raise] *)
Definition raise {A : Type} (e : exn) : M A := fun s => (Raised e, s).

(** [try: m  except Exception as e: handler e] *)
Definition try_except {A : Type} (m : M A) (handler : exn -> M A) : M A :=
  fun s =>
    match m s with
    | (Raised e, s') => handler e s'
    | other => other
    end.

Definition lift {A : Type} (r : result A) : M A :=
  match r with
  | Ok a => ret a
  | Err e => raise e
  end.

Definition get_cache : M (gmap string cache_entry) :=
  fun s => (Normal (recommendation_cache s), s).

Definition put_cache (c : gmap string cache_entry) : M unit :=
  fun s => (Normal tt, State c (external_calls s)).

(** A call to a collaborator is logged, then answers or raises. *)
Definition external {A : Type} (c : call) (answer : result A) : M A :=
  fun s =>
    let s' := State (recommendation_cache s) (external_calls s ++ [c]) in
    match answer with
    | Ok a => (Normal a, s')
    | Err e => (Raised e, s')
    end.

Fixpoint for_each {A : Type} (l : list A) (f : A -> M unit) : M unit :=
  match l with
  | [] => ret tt
  | x :: rest => f x ;;; for_each rest f
  end.

(* ===================================================================== *)
(** * [clean_old_cache] *)
(* ===================================================================== *)

(** [timedelta(minutes=10)] in microseconds. *)
Definition ten_minutes : Z := 600000000.

(** [del recommendation_cache[key]] *)
Definition del_cache (key : string) : M unit :=
  c <- get_cache ;;
  match c !! key with
  | Some _ => put_cache (delete key c)
  | None => raise (key_error key)
  end.

Definition clean_old_cache (now : Z) : M unit :=
  c <- get_cache ;;
  let to_delete :=
    map fst
      (List.filter (fun kv => (ten_minutes <? now - timestamp (snd kv))%Z)
         (map_to_list c)) in
  for_each to_delete del_cache.

(* ===================================================================== *)
(** * [vibe_recommend] *)
(* ===================================================================== *)

Notation "x <-- r ;; k" := (result_bind r (fun x => k))
  (at level 100, r at next level, right associativity, only parsing).

Definition cors_headers : list (string * string) :=
  [("Access-Control-Allow-Origin", "*")].

Definition preflight_headers : list (string * string) :=
  [("Access-Control-Allow-Origin", "*");
   ("Access-Control-Allow-Methods", "POST");
   ("Access-Control-Allow-Headers", "Content-Type")].

Definition mood_map : gmap string (list float) :=
  list_to_map
    [("happy", [0.8; 0.9; 0.8]);
     ("sad", [0.2; 0.3; 0.3]);
     ("energetic", [0.9; 0.6; 0.9]);
     ("chill", [0.4; 0.5; 0.4]);
     ("focus", [0.6; 0.4; 0.5]);
     ("party", [0.9; 0.7; 0.95])]%float.

(** [mood_map.get(mood, [0.5, 0.5, 0.5])] *)
Definition mood_target (mood : string) : list float :=
  default [0.5; 0.5; 0.5]%float (mood_map !! mood).

Definition feature_vec (f : audio_features) : list float :=
  [energy f; valence f; danceability f].

(** [enumerate(l)] *)
Definition enumerate {A : Type} (l : list A) : list (nat * A) :=
  imap (fun i x => (i, x)) l.

(** A float between 0 and 1. *)
Definition unit_interval (x : float) : bool :=
  (0 <=? x)%float && (x <=? 1)%float.

(** The moods of the table. *)
Definition known_moods : list string :=
  ["happy"; "sad"; "energetic"; "chill"; "focus"; "party"].

(* ===================================================================== *)
(** * A runtime and a world to run the handler on *)
(* ===================================================================== *)

(** [str.lower] on ASCII text. *)
Definition ascii_lower_char (ch : ascii) : ascii :=
  let n := nat_of_ascii ch in
  if (65 <=? n)%nat && (n <=? 90)%nat then ascii_of_nat (n + 32) else ch.

Fixpoint ascii_lower (s : string) : string :=
  match s with
  | EmptyString => EmptyString
  | String ch rest => String (ascii_lower_char ch) (ascii_lower rest)
  end.

(** [str] of [None], of a [bool] and of an [int]. *)
Definition scalar_str (v : json) : string :=
  match v with
  | JNull => "None"
  | JBool true => "True"
  | JBool false => "False"
  | JInt n => pretty n
  | _ => type_name v
  end.

Definition float_of_Z (n : Z) : float :=
  if (n <? 0)%Z then (- of_uint63 (Uint63.of_Z (- n)))%float
  else of_uint63 (Uint63.of_Z n).

Definition round_half_even (num den : Z) : Z :=
  let q := (num / den)%Z in
  let r := (num mod den)%Z in
  if (2 * r <? den)%Z then q
  else if (den <? 2 * r)%Z then (q + 1)%Z
  else if Z.even q then q else (q + 1)%Z.

(** [round(x, ndigits)] for an [x] whose scaled value fits the mantissa:
    the exact value of [x] is rounded to the nearest multiple of
    [10 ** -ndigits], ties to even, and the nearest float is taken. *)
Definition round_decimal (x : float) (ndigits : Z) : float :=
  match Prim2SF x with
  | S754_finite s m e =>
      let scale := (10 ^ ndigits)%Z in
      let n :=
        if (0 <=? e)%Z then (Z.pos m * 2 ^ e * scale)%Z
        else round_half_even (Z.pos m * scale) (2 ^ (- e)) in
      let q := (float_of_Z n / float_of_Z scale)%float in
      if s then (- q)%float else q
  | _ => x
  end.

(** The mean of the rows, column by column. *)
Definition column_mean (rows : list (list float)) : list float :=
  match rows with
  | [] => []
  | r :: rest =>
      map (fun x => (x / float_of_Z (Z.of_nat (length rows)))%float)
        (fold_left (zip_with PrimFloat.add) rest r)
  end.

Definition dot (u v : list float) : float :=
  fold_left PrimFloat.add (zip_with PrimFloat.mul u v) 0%float.

Definition normalize (u : list float) : list float :=
  let n := PrimFloat.sqrt (dot u u) in
  map (fun x => (x / (if (n =? 0)%float then 1 else n))%float) u.

(** The cosine of two vectors in binary64, refusing NaN. *)
Definition cosine (u v : list float) : result float :=
  if existsb is_nan (u ++ v) then Err "Input contains NaN."
  else Ok (dot (normalize u) (normalize v)).

Definition example_track (n : string) : track :=
  {| track_id := JStr n;
     track_name := "Song " +:+ n;
     track_artists := ["Artist " +:+ n];
     track_images := [];
     track_uri := "spotify:track:" +:+ n;
     track_preview_url := None |}.

(** A user with one track in the history; three candidates come back, the
    second without features. *)
Definition example_world : world :=
  {| now_sweep := 1000;
     now_store := 2000;
     history_docs := fun _ => Ok [[("track_id", JStr "seed")]];
     search_ids := fun _ => Ok [];
     seed_audio_features := fun ids =>
       Ok (map (fun _ => Some (AudioFeatures 0.5 0.5 0.5)) ids);
     recommendations_tracks := fun _ =>
       Ok [example_track "a"; example_track "b"; example_track "c"];
     rec_audio_features := fun _ =>
       Ok [Some (AudioFeatures 0.5 0.5 0.5); None;
           Some (AudioFeatures 0.9 0.1 0.2)] |}.

(** The same world with the candidates' feature fetch failing. *)
Definition failing_features_world : world :=
  {| now_sweep := now_sweep example_world;
     now_store := now_store example_world;
     history_docs := history_docs example_world;
     search_ids := search_ids example_world;
     seed_audio_features := seed_audio_features example_world;
     recommendations_tracks := recommendations_tracks example_world;
     rec_audio_features := fun _ => Err "http status: 429" |}.

(** A user without history, in a catalog where the search finds nothing. *)
Definition empty_world : world :=
  {| now_sweep := 1000;
     now_store := 2000;
     history_docs := fun _ => Ok [];
     search_ids := fun _ => Ok [];
     seed_audio_features := fun ids => Ok (map (fun _ => None) ids);
     recommendations_tracks := fun _ => Ok [];
     rec_audio_features := fun _ => Ok [] |}.

(** A world whose history store is down. *)
Definition history_down_world : world :=
  {| now_sweep := 1000;
     now_store := 2000;
     history_docs := fun _ => Err "503 Service Unavailable";
     search_ids := fun _ => Ok [];
     seed_audio_features := fun ids => Ok (map (fun _ => None) ids);
     recommendations_tracks := fun _ => Ok [];
     rec_audio_features := fun _ => Ok [] |}.

Definition example_request : Request :=
  {| method := "POST";
     get_json := Some (JDict [("user_id", JStr "u1"); ("mood", JStr "Happy")]) |}.

(** A body without [user_id] whose [mood] is a number. *)
Definition number_mood_request : Request :=
  {| method := "POST";
     get_json := Some (JDict [("mood", JInt 5)]) |}.

Definition example_entry : cache_entry :=
  {| data := RecommendationsBody []; timestamp := 900 |}.

(** What the scoring loop collects in [example_world] for [example_request]. *)
Definition example_scored : list scored_track :=
  [ {| st_id := JStr "a"; st_name := "Song a"; st_artist := "Artist a";
       st_image := EmptyString; st_uri := "spotify:track:a";
       st_preview_url := None; score := 0.999 |};
    {| st_id := JStr "c"; st_name := "Song c"; st_artist := "Artist c";
       st_image := EmptyString; st_uri := "spotify:track:c";
       st_preview_url := None; score := 0.738 |} ].

(** A cache that holds an entry for [example_request], stored 100
    microseconds before the sweep of [example_world]. *)
Definition example_cache : gmap string cache_entry :=
  {[ "u1_happy" := example_entry ]}.

(** A cache whose entry for [example_request] was stored ten minutes and
    one microsecond before the sweep of [example_world]. *)
Definition stale_cache : gmap string cache_entry :=
  {[ "u1_happy" := {| data := RecommendationsBody []; timestamp := -599999001 |} ]}.

(** An entry with a name and a score, for examples of ranking. *)
Definition scored_entry (n : string) (x : float) : scored_track :=
  {| st_id := JStr n; st_name := n; st_artist := EmptyString;
     st_image := EmptyString; st_uri := EmptyString;
     st_preview_url := None; score := x |}.

(** [request.get_json(silent=True) or {}] *)
Definition request_data (request : Request) : json :=
  match get_json request with
  | Some v => if truthy v then v else JDict []
  | None => JDict []
  end.

(** A body that is a JSON array, hence truthy and without [get]. *)
Definition array_body_request : Request :=
  {| method := "POST"; get_json := Some (JList [JInt 1]) |}.

(** A body without [user_id] whose [mood] is a string. *)
Definition text_mood_request : Request :=
  {| method := "POST"; get_json := Some (JDict [("mood", JStr "sad")]) |}.

(** The entries of a cache that are at most ten minutes old at [now]. *)
Definition swept (now : Z) (c : gmap string cache_entry) : gmap string cache_entry :=
  filter (fun kv => (now - timestamp kv.2 <= ten_minutes)%Z) c.

(** The candidates that have a feature entry, in their order. *)
Fixpoint with_features (tracks : list track)
    (rec_features : list (option audio_features))
    : list (track * audio_features) :=
  match tracks, rec_features with
  | t :: tracks', Some f :: fs' => (t, f) :: with_features tracks' fs'
  | _ :: tracks', None :: fs' => with_features tracks' fs'
  | _, _ => []
  end.

(** [[f(x) for x in l]] for an [f] that can raise. *)
Fixpoint map_result {A B : Type} (f : A -> result B) (l : list A) : result (list B) :=
  match l with
  | [] => Ok []
  | x :: rest =>
      y <-- f x ;;
      ys <-- map_result f rest ;;
      Ok (y :: ys)
  end.

Section Handler.

(** [str.lower] *)
Variable str_lower : string -> string.
(** [str(v)] of a value that is not a string, as an f-string formats it *)
Variable py_str : json -> string.
(** [round(x, ndigits)] *)
Variable py_round : float -> Z -> float.
(** [numpy.mean(rows, axis=0)] *)
Variable np_mean : list (list float) -> list float.
(** [cosine_similarity([u], [v])[0][0]] of sklearn, which validates its
    input and raises on what it rejects *)
Variable cosine_similarity : list float -> list float -> result float.

(** [v.lower()]: only a [str] has the method. *)
Definition method_lower (v : json) : result string :=
  match v with
  | JStr s => Ok (str_lower s)
  | _ => Err (attribute_error v "lower")
  end.

(** [f"{v}"] *)
Definition format_value (v : json) : string :=
  match v with
  | JStr s => s
  | _ => py_str v
  end.

(** The body of the scoring loop after [continue] was not taken, up to the
    dict that is appended. *)
Definition score_track (user_vec target : list float) (t : track)
    (f : audio_features) : result scored_track :=
  let vec := feature_vec f in
  cu <-- cosine_similarity user_vec vec ;;
  ct <-- cosine_similarity target vec ;;
  let score := (cu * 0.6 + ct * 0.4)%float in
  first_artist <-- list_index (track_artists t) 0 ;;
  Ok {| st_id := track_id t;
        st_name := track_name t;
        st_artist := first_artist;
        st_image := match track_images t with
                    | url :: _ => url
                    | [] => EmptyString
                    end;
        st_uri := track_uri t;
        st_preview_url := track_preview_url t;
        score := py_round score 3 |}.

(** [for i, t in enumerate(recs['tracks']): ...], with the list [scored]
    that the loop appends to. *)
Fixpoint score_loop (user_vec target : list float)
    (rec_features : list (option audio_features))
    (tracks : list (nat * track)) (scored : list scored_track)
    : result (list scored_track) :=
  match tracks with
  | [] => Ok scored
  | (i, t) :: rest =>
      f <-- list_index rec_features i ;;
      match f with
      | None => score_loop user_vec target rec_features rest scored
      | Some f =>
          entry <-- score_track user_vec target t f ;;
          score_loop user_vec target rec_features rest (scored ++ [entry])
      end
  end.

(** [f"{user_id}_{mood}"] *)
Definition cache_key (user_id : json) (mood : string) : string :=
  format_value user_id +:+ "_" +:+ mood.

(** [[h.get('track_id') for h in history if h.get('track_id')]] *)
Definition history_track_ids (history : list (list (string * json))) : list json :=
  List.filter truthy
    (map (fun h => default JNull (dict_lookup h "track_id")) history).

(** Lines 61 to 172: the handler once [user_id] and [mood] are read and
    [user_id] is accepted. *)
Definition recommend (w : world) (user_id : json) (mood : string) : M Empty_set :=
  let headers := cors_headers in
  clean_old_cache (now_sweep w) ;;;
  let cache_key := cache_key user_id mood in
  c <- get_cache ;;
  match c !! cache_key with
  | Some entry => return_ (Response (data entry) 200 headers)
  | None =>
  history <- external (HistoryQuery user_id) (history_docs w user_id) ;;
  let track_ids := history_track_ids history in
  track_ids <-
    match track_ids with
    | [] =>
        try_except
          (external (Search mood) (search_ids w mood))
          (fun _ => return_ (Response (ErrorBody "Failed to search tracks") 500 headers))
    | _ :: _ => ret track_ids
    end ;;
  match track_ids with
  | [] => return_ (Response (RecommendationsBody []) 200 headers)
  | _ :: _ =>
  features <-
    try_except
      (fs <- external (AudioFeaturesFetch track_ids) (seed_audio_features w track_ids) ;;
       ret (omap id fs))
      (fun _ => return_ (Response (ErrorBody "Failed to get audio features") 500 headers)) ;;
  match features with
  | [] => return_ (Response (RecommendationsBody []) 200 headers)
  | _ :: _ =>
  let user_vec := np_mean (map feature_vec features) in
  let target := mood_target mood in
  recs <-
    try_except
      (external (RecommendationsFetch (take 5 track_ids))
         (recommendations_tracks w (take 5 track_ids)))
      (fun _ => return_ (Response (ErrorBody "Failed to get recommendations") 500 headers)) ;;
  let rec_ids := map track_id recs in
  rec_features <-
    try_except
      (external (AudioFeaturesFetch rec_ids) (rec_audio_features w rec_ids))
      (fun _ => ret (replicate (length rec_ids) None)) ;;
  scored <- lift (score_loop user_vec target rec_features (enumerate recs) []) ;;
  let top := take 10 (sorted PrimFloat.ltb score true scored) in
  let result := RecommendationsBody top in
  c <- get_cache ;;
  put_cache (<[cache_key := CacheEntry result (now_store w)]> c) ;;;
  return_ (Response result 200 headers)
  end end end.

(** The statements inside the outer [try]: lines 42 to 59, then the rest. *)
Definition vibe_recommend_body (w : world) (request : Request) : M Empty_set :=
  if String.eqb (method request) "OPTIONS" then
    return_ (Response EmptyBody 204 preflight_headers)
  else
  let headers := cors_headers in
  let data := request_data request in
  user_id <- lift (method_get data "user_id" JNull) ;;
  mood_value <- lift (method_get data "mood" (JStr "chill")) ;;
  mood <- lift (method_lower mood_value) ;;
  if negb (truthy user_id) then
    return_ (Response (ErrorBody "user_id required") 400 headers)
  else
  recommend w user_id mood.

(** The function: its body, and the [except Exception as e] clause that
    closes it.  A request starts from the cache the process holds and an
    empty log; it ends with a response, the cache it leaves and the calls it
    made to the collaborators. *)
Definition vibe_recommend (w : world) (request : Request)
    (cache : gmap string cache_entry)
    : response * gmap string cache_entry * list call :=
  match vibe_recommend_body w request (State cache []) with
  | (Returned r, s') => (r, recommendation_cache s', external_calls s')
  | (Raised e, s') =>
      (Response (ErrorBody e) 500 cors_headers,
       recommendation_cache s', external_calls s')
  | (Normal x, _) => match x with end
  end.

(** A request the handler accepts: not a preflight, with a JSON object as
    body whose [user_id] is truthy and whose [mood] is absent or a string;
    [mood] is the mood after [lower()]. *)
Definition valid_request (request : Request) (user_id : json) (mood : string) : Prop :=
  method request <> "OPTIONS" /\
  exists fields mood_text,
    get_json request = Some (JDict fields) /\
    dict_lookup fields "user_id" = Some user_id /\
    truthy user_id = true /\
    default (JStr "chill") (dict_lookup fields "mood") = JStr mood_text /\
    mood = str_lower mood_text.

(** The seed tracks the handler goes on with: those of the history when
    there are any, else those of the search by mood. *)
Definition seeds_found (w : world) (user_id : json) (mood : string)
    (track_ids : list json) : Prop :=
  exists history,
    history_docs w user_id = Ok history /\
    ((history_track_ids history <> [] /\ track_ids = history_track_ids history) \/
     (history_track_ids history = [] /\ search_ids w mood = Ok track_ids)).

(** The score of a candidate as the specification writes it:
    [0.6 * cosine_similarity(user_vector, candidate_vector) +
     0.4 * cosine_similarity(mood_target, candidate_vector)], rounded to 3
    decimal digits. *)
Definition weighted_score (user_vec target : list float) (f : audio_features)
    : result float :=
  cu <-- cosine_similarity user_vec (feature_vec f) ;;
  ct <-- cosine_similarity target (feature_vec f) ;;
  Ok (py_round (0.6 * cu + 0.4 * ct)%float 3).

(** The run reaches the candidates: the request is accepted, the cache
    misses, seed tracks are found, some of them have features, and the
    recommendation fetch answers with [recs]. *)
Definition reaches_candidates (w : world) (request : Request)
    (c : gmap string cache_entry) (user_id : json) (mood : string)
    (track_ids : list json) (fs : list (option audio_features))
    (recs : list track) : Prop :=
  valid_request request user_id mood /\
  swept (now_sweep w) c !! cache_key user_id mood = None /\
  seeds_found w user_id mood track_ids /\
  track_ids <> [] /\
  seed_audio_features w track_ids = Ok fs /\
  omap id fs <> [] /\
  recommendations_tracks w (take 5 track_ids) = Ok recs.

(** The list [rec_features] the scoring loop reads (lines 129 to 133): the
    answer of the fetch, or one [None] per candidate when the fetch raised. *)
Definition fetched_rec_features (w : world) (recs : list track)
    : list (option audio_features) :=
  match rec_audio_features w (map track_id recs) with
  | Ok l => l
  | Err _ => replicate (length (map track_id recs)) None
  end.

(* ===================================================================== *)
(** * The handler as a decision on the answers of the world *)
(* ===================================================================== *)

(** Lines 86 to 172, read as a decision tree: what the handler returns or
    raises, the cache it leaves and the calls it has made, from the seed
    tracks [track_ids], the swept cache [cache1] and the [calls] made to
    find the seeds. *)
Definition outcome_from_seeds (w : world) (user_id : json) (mood : string)
    (cache1 : gmap string cache_entry) (calls : list call)
    (track_ids : list json) : outcome Empty_set * state :=
  match track_ids with
  | [] =>
      (Returned (Response (RecommendationsBody []) 200 cors_headers),
       State cache1 calls)
  | _ :: _ =>
      let calls1 := calls ++ [AudioFeaturesFetch track_ids] in
      match seed_audio_features w track_ids with
      | Err _ =>
          (Returned (Response (ErrorBody "Failed to get audio features") 500 cors_headers),
           State cache1 calls1)
      | Ok fs =>
          match omap id fs with
          | [] =>
              (Returned (Response (RecommendationsBody []) 200 cors_headers),
               State cache1 calls1)
          | _ :: _ =>
              let calls2 := calls1 ++ [RecommendationsFetch (take 5 track_ids)] in
              match recommendations_tracks w (take 5 track_ids) with
              | Err _ =>
                  (Returned
                     (Response (ErrorBody "Failed to get recommendations") 500 cors_headers),
                   State cache1 calls2)
              | Ok recs =>
                  let calls3 := calls2 ++ [AudioFeaturesFetch (map track_id recs)] in
                  match score_loop (np_mean (map feature_vec (omap id fs)))
                          (mood_target mood) (fetched_rec_features w recs)
                          (enumerate recs) [] with
                  | Err e => (Raised e, State cache1 calls3)
                  | Ok scored =>
                      let result :=
                        RecommendationsBody
                          (take 10 (sorted PrimFloat.ltb score true scored)) in
                      (Returned (Response result 200 cors_headers),
                       State (<[cache_key user_id mood := CacheEntry result (now_store w)]>
                                cache1) calls3)
                  end
              end
          end
      end
  end.

(** Lines 61 to 172 as a decision tree. *)
Definition recommend_outcome (w : world) (user_id : json) (mood : string)
    (c : gmap string cache_entry) : outcome Empty_set * state :=
  let cache1 := swept (now_sweep w) c in
  match cache1 !! cache_key user_id mood with
  | Some entry =>
      (Returned (Response (data entry) 200 cors_headers), State cache1 [])
  | None =>
      match history_docs w user_id with
      | Err e => (Raised e, State cache1 [HistoryQuery user_id])
      | Ok history =>
          match history_track_ids history with
          | [] =>
              match search_ids w mood with
              | Err _ =>
                  (Returned (Response (ErrorBody "Failed to search tracks") 500 cors_headers),
                   State cache1 [HistoryQuery user_id; Search mood])
              | Ok track_ids =>
                  outcome_from_seeds w user_id mood cache1
                    [HistoryQuery user_id; Search mood] track_ids
              end
          | _ :: _ =>
              outcome_from_seeds w user_id mood cache1
                [HistoryQuery user_id] (history_track_ids history)
          end
      end
  end.

(** The [except Exception as e] clause applied to what the body did. *)
Definition close_handler (run : outcome Empty_set * state)
    : response * gmap string cache_entry * list call :=
  match run with
  | (Returned r, s') => (r, recommendation_cache s', external_calls s')
  | (Raised e, s') =>
      (Response (ErrorBody e) 500 cors_headers,
       recommendation_cache s', external_calls s')
  | (Normal x, _) => match x with end
  end.

(** Every payload in the cache is a recommendations list of at most ten
    entries. *)
Definition payloads_bounded (c : gmap string cache_entry) : Prop :=
  forall k e, c !! k = Some e ->
    exists l, data e = RecommendationsBody l /\ length l <= 10.

(** The cache after a sequence of requests, each in the world it meets. *)
Definition serve_all (requests : list (world * Request))
    (c : gmap string cache_entry) : gmap string cache_entry :=
  fold_left (fun c wr => (vibe_recommend wr.1 wr.2 c).1.2) requests c.

(* ===================================================================== *)
(** * More worlds and requests to run the handler on *)
(* ===================================================================== *)

(** [example_world] with a feature fetch that answers with one entry for
    the three candidates. *)
Definition short_features_world : world :=
  {| now_sweep := now_sweep example_world;
     now_store := now_store example_world;
     history_docs := history_docs example_world;
     search_ids := search_ids example_world;
     seed_audio_features := seed_audio_features example_world;
     recommendations_tracks := recommendations_tracks example_world;
     rec_audio_features := fun _ => Ok [Some (AudioFeatures 0.5 0.5 0.5)] |}.

(** A candidate the catalog lists without artists. *)
Definition anonymous_track : track :=
  {| track_id := JStr "x";
     track_name := "Song x";
     track_artists := [];
     track_images := ["https://i.scdn.co/image/x"];
     track_uri := "spotify:track:x";
     track_preview_url := Some "https://p.scdn.co/mp3-preview/x" |}.

(** [example_world] with two candidates, the second without artists, both
    with features. *)
Definition no_artist_world : world :=
  {| now_sweep := now_sweep example_world;
     now_store := now_store example_world;
     history_docs := history_docs example_world;
     search_ids := search_ids example_world;
     seed_audio_features := seed_audio_features example_world;
     recommendations_tracks := fun _ => Ok [example_track "a"; anonymous_track];
     rec_audio_features := fun _ =>
       Ok [Some (AudioFeatures 0.5 0.5 0.5); Some (AudioFeatures 0.9 0.1 0.2)] |}.

(** A POST without [mood]. *)
Definition no_mood_request : Request :=
  {| method := "POST"; get_json := Some (JDict [("user_id", JStr "u1")]) |}.

(** A GET with the mood in capitals and a field the handler does not read. *)
Definition capitals_request : Request :=
  {| method := "GET";
     get_json :=
       Some (JDict [("limit", JInt 5); ("user_id", JStr "u1"); ("mood", JStr "CHILL")]) |}.

(** The user [a] asking for the mood [b_c]. *)
Definition underscore_mood_request : Request :=
  {| method := "POST";
     get_json := Some (JDict [("user_id", JStr "a"); ("mood", JStr "b_c")]) |}.

(** A cache holding what was stored for the user [a_b] and the mood [c]. *)
Definition underscore_user_cache : gmap string cache_entry :=
  {[ "a_b_c" := example_entry ]}.

(** Twelve entries, the ninth and the twelfth with the two highest scores. *)
Definition twelve_scored : list scored_track :=
  [scored_entry "n1" 0.31; scored_entry "n2" 0.32; scored_entry "n3" 0.33;
   scored_entry "n4" 0.34; scored_entry "n5" 0.35; scored_entry "n6" 0.36;
   scored_entry "n7" 0.37; scored_entry "n8" 0.38; scored_entry "n9" 0.95;
   scored_entry "n10" 0.4; scored_entry "n11" 0.41; scored_entry "n12" 0.97].

(* ===================================================================== *)
(** * [<] on floats that are not NaN is a strict weak order *)
(* ===================================================================== *)

Lemma SFltb_rank (x y : spec_float) :
  x <> S754_nan -> y <> S754_nan ->
  SFltb x y = true <-> rank_lt (sf_rank x) (sf_rank y).
Proof.
  intros Hx Hy. unfold SFltb.
  destruct x as [sx|sx| |sx mx ex], y as [sy|sy| |sy my ey];
    try congruence; simpl;
    repeat match goal with s : bool |- _ => destruct s end; simpl;
    try (split; [discriminate | lia]); try (split; [lia | discriminate]);
    try (split; [reflexivity | lia]); try (split; [lia | reflexivity]).
  all: change (PosDef.Pos.compare_cont Eq mx my) with (Pos.compare mx my).
  all: destruct (Z.compare_spec ex ey); destruct (Pos.compare_spec mx my);
    simpl; split; try discriminate; try reflexivity; lia.
Qed.

Lemma not_nan_spec (x : float) : not_nan x <-> Prim2SF x <> S754_nan.
Proof.
  unfold not_nan, is_nan. rewrite FloatAxioms.eqb_spec. unfold SFeqb.
  destruct (Prim2SF x) as [s|s| |s m e]; simpl.
  - split; [discriminate | reflexivity].
  - destruct s; (split; [discriminate | reflexivity]).
  - split; [discriminate | congruence].
  - change (PosDef.Pos.compare_cont Eq m m) with (Pos.compare m m).
    rewrite Z.compare_refl, Pos.compare_refl.
    destruct s; (split; [discriminate | reflexivity]).
Qed.

Lemma ltb_rank (x y : float) :
  not_nan x -> not_nan y ->
  (x <? y)%float = true <-> rank_lt (sf_rank (Prim2SF x)) (sf_rank (Prim2SF y)).
Proof.
  intros Hx%not_nan_spec Hy%not_nan_spec. rewrite FloatAxioms.ltb_spec.
  by apply SFltb_rank.
Qed.

Lemma rank_lt_irrefl (a : Z * Z * Z) : ~ rank_lt a a.
Proof. destruct a as [[a1 a2] a3]. simpl. lia. Qed.

Lemma rank_lt_trans (a b c : Z * Z * Z) : rank_lt a b -> rank_lt b c -> rank_lt a c.
Proof.
  destruct a as [[a1 a2] a3], b as [[b1 b2] b3], c as [[c1 c2] c3]. simpl. lia.
Qed.

Lemma rank_lt_total (a b c : Z * Z * Z) : rank_lt a c -> rank_lt a b \/ rank_lt b c.
Proof.
  destruct a as [[a1 a2] a3], b as [[b1 b2] b3], c as [[c1 c2] c3]. simpl. lia.
Qed.

Lemma float_ltb_irrefl (x : float) : not_nan x -> (x <? x)%float = false.
Proof.
  intros Hx. apply not_true_is_false. rewrite ltb_rank by done.
  apply rank_lt_irrefl.
Qed.

Lemma float_ltb_trans (x y z : float) :
  not_nan x -> not_nan y -> not_nan z ->
  (x <? y)%float = true -> (y <? z)%float = true -> (x <? z)%float = true.
Proof.
  intros Hx Hy Hz. rewrite !ltb_rank by done. apply rank_lt_trans.
Qed.

Lemma float_ltb_cotrans (x y z : float) :
  not_nan x -> not_nan y -> not_nan z ->
  (x <? y)%float = false -> (y <? z)%float = false -> (x <? z)%float = false.
Proof.
  intros Hx Hy Hz Hxy Hyz. apply not_true_is_false. intros Hxz.
  apply ltb_rank in Hxz; [|done..].
  destruct (rank_lt_total _ (sf_rank (Prim2SF y)) _ Hxz) as [H|H];
    apply ltb_rank in H; congruence.
Qed.

(** Multiplication of floats commutes. *)
Lemma float_mul_comm (x y : float) : (x * y)%float = (y * x)%float.
Proof.
  apply Prim2SF_inj. rewrite !mul_spec. unfold SF64mul, SFmul.
  destruct (Prim2SF x) as [sx|sx| |sx mx ex], (Prim2SF y) as [sy|sy| |sy my ey];
    try reflexivity; rewrite (xorb_comm sx sy); try reflexivity.
  by rewrite (Pos.mul_comm mx my), (Z.add_comm ex ey).
Qed.

(* ===================================================================== *)
(** * [sorted] sorts, permutes and is stable *)
(* ===================================================================== *)

Section Sorting.

Context {A K : Type}.
Variable lt : K -> K -> bool.
Variable key : A -> K.
(** The keys on which [lt] is known to be a strict weak order. *)
Variable good : K -> Prop.

Hypothesis lt_irrefl : forall x, good x -> lt x x = false.
Hypothesis lt_trans : forall x y z, good x -> good y -> good z ->
  lt x y = true -> lt y z = true -> lt x z = true.
Hypothesis lt_cotrans : forall x y z, good x -> good y -> good z ->
  lt x y = false -> lt y z = false -> lt x z = false.

Local Abbreviation ascending := (ascending lt key).
Local Abbreviation descending := (descending lt key).
Local Abbreviation good_keys := (good_keys key good).
Local Abbreviation ties := (ties lt key).

Lemma lt_asym x y : good x -> good y -> lt x y = true -> lt y x = false.
Proof.
  intros Hx Hy Hxy. destruct (lt y x) eqn:Hyx; [|done].
  rewrite <- (lt_irrefl x Hx). symmetry. by apply (lt_trans x y x).
Qed.

Lemma insert_sorted_perm x run : insert_sorted lt key x run ≡ₚ x :: run.
Proof.
  induction run as [|y rest IH]; simpl; [done|].
  destruct (lt (key x) (key y)); [done|].
  rewrite IH. apply Permutation_swap.
Qed.

Lemma fold_insert_perm l acc :
  fold_left (fun run x => insert_sorted lt key x run) l acc ≡ₚ acc ++ l.
Proof.
  revert acc. induction l as [|x l IH]; intros acc; simpl.
  - by rewrite app_nil_r.
  - rewrite IH, insert_sorted_perm. simpl. apply Permutation_middle.
Qed.

Lemma list_sort_perm l : list_sort lt key l ≡ₚ l.
Proof. unfold list_sort. by rewrite fold_insert_perm. Qed.

Lemma sorted_perm reverse l : sorted lt key reverse l ≡ₚ l.
Proof.
  unfold sorted. destruct reverse.
  - by rewrite reverse_Permutation, list_sort_perm, reverse_Permutation.
  - apply list_sort_perm.
Qed.

Lemma good_keys_perm l l' : l ≡ₚ l' -> good_keys l -> good_keys l'.
Proof. unfold good_keys. by intros ->. Qed.

Lemma insert_sorted_ascending x run :
  good (key x) -> good_keys run ->
  ascending run -> ascending (insert_sorted lt key x run).
Proof.
  unfold ascending, good_keys. intros Hx.
  induction run as [|y rest IH]; intros Hg Hs; simpl.
  - repeat constructor.
  - apply Forall_cons in Hg as [Hy Hg].
    apply StronglySorted_cons in Hs as [Hall Hs].
    destruct (lt (key x) (key y)) eqn:Hxy.
    + apply StronglySorted_cons. split.
      * constructor; [by apply lt_asym|].
        rewrite Forall_forall in Hall, Hg |- *. intros z Hz.
        destruct (lt (key z) (key x)) eqn:Hzx; [|done].
        rewrite <- (Hall z Hz). symmetry.
        apply (lt_trans (key z) (key x) (key y)); auto.
      * apply StronglySorted_cons. by split.
    + apply StronglySorted_cons. split; [|by apply IH].
      rewrite (insert_sorted_perm x rest). by constructor.
Qed.

Lemma fold_insert_ascending l acc :
  good_keys acc -> good_keys l -> ascending acc ->
  ascending (fold_left (fun run x => insert_sorted lt key x run) l acc).
Proof.
  revert acc. induction l as [|x l IH]; intros acc Hacc Hl Hs; simpl; [done|].
  apply Forall_cons in Hl as [Hx Hl].
  apply IH; [|done|by apply insert_sorted_ascending].
  apply (good_keys_perm (x :: acc)); [by rewrite insert_sorted_perm|].
  by constructor.
Qed.

Lemma list_sort_ascending l : good_keys l -> ascending (list_sort lt key l).
Proof.
  intros Hl. apply fold_insert_ascending; [constructor|done|constructor].
Qed.

Lemma ascending_reverse l : ascending l -> descending (reverse l).
Proof.
  unfold ascending, descending. induction l as [|x l IH]; intros Hs.
  - constructor.
  - apply StronglySorted_cons in Hs as [Hall Hs].
    rewrite reverse_cons. apply StronglySorted_app. split_and!.
    + intros a b Ha Hb. rewrite elem_of_reverse in Ha.
      apply list_elem_of_singleton in Hb. subst b.
      rewrite Forall_forall in Hall. by apply Hall.
    + by apply IH.
    + repeat constructor.
Qed.

Lemma sorted_reverse_descending l :
  good_keys l -> descending (sorted lt key true l).
Proof.
  intros Hl. unfold sorted. apply ascending_reverse, list_sort_ascending.
  by apply (good_keys_perm l); [rewrite reverse_Permutation|].
Qed.

Lemma ties_app k l1 l2 : ties k (l1 ++ l2) = ties k l1 ++ ties k l2.
Proof. apply List.filter_app. Qed.

Lemma ties_reverse k l : ties k (reverse l) = reverse (ties k l).
Proof.
  induction l as [|x l IH]; [done|].
  rewrite reverse_cons, ties_app, IH. simpl.
  destruct (tie lt (key x) k); simpl.
  - by rewrite reverse_cons.
  - by rewrite app_nil_r.
Qed.

Lemma ties_none k l :
  (forall z, z ∈ l -> tie lt (key z) k = false) -> ties k l = [].
Proof.
  induction l as [|y l IH]; intros H; simpl; [done|].
  rewrite (H y) by apply list_elem_of_here.
  apply IH. intros z Hz. apply H. by apply list_elem_of_further.
Qed.

Lemma tie_not_lt k x z :
  good k -> good x -> good z ->
  tie lt x k = true -> tie lt z k = true -> lt x z = false.
Proof.
  unfold tie. intros Hk Hx Hz.
  rewrite !andb_true_iff, !negb_true_iff. intros [Hxk _] [_ Hkz].
  by apply (lt_cotrans x k z).
Qed.

Lemma insert_sorted_ties k x run :
  good k -> good (key x) -> good_keys run -> ascending run ->
  ties k (insert_sorted lt key x run) = ties k (run ++ [x]).
Proof.
  intros Hk Hx. induction run as [|y rest IH]; intros Hg Hs; [done|].
  apply Forall_cons in Hg as [Hy Hg].
  pose proof Hs as Hs'. apply StronglySorted_cons in Hs' as [Hall Hrest].
  simpl insert_sorted. destruct (lt (key x) (key y)) eqn:Hxy.
  - rewrite ties_app.
    change (ties k (x :: y :: rest))
      with (if tie lt (key x) k then x :: ties k (y :: rest) else ties k (y :: rest)).
    change (ties k [x]) with (if tie lt (key x) k then [x] else []).
    destruct (tie lt (key x) k) eqn:Hxk; [|by rewrite app_nil_r].
    rewrite ties_none; [done|].
    intros z Hz. destruct (tie lt (key z) k) eqn:Hzk; [|done].
    assert (good (key z)) as Hgz.
    { apply elem_of_cons in Hz as [->|Hz]; [done|].
      unfold good_keys in Hg. rewrite Forall_forall in Hg. by apply Hg. }
    assert (lt (key z) (key y) = false) as Hzy.
    { apply elem_of_cons in Hz as [->|Hz]; [by apply lt_irrefl|].
      rewrite Forall_forall in Hall. by apply Hall. }
    rewrite <- Hxy.
    apply (lt_cotrans (key x) (key z) (key y)); [done..| |done].
    by apply (tie_not_lt k).
  - change (ties k (y :: insert_sorted lt key x rest))
      with (if tie lt (key y) k then y :: ties k (insert_sorted lt key x rest)
            else ties k (insert_sorted lt key x rest)).
    rewrite IH by done.
    change (ties k ((y :: rest) ++ [x]))
      with (if tie lt (key y) k then y :: ties k (rest ++ [x])
            else ties k (rest ++ [x])).
    done.
Qed.

Lemma fold_insert_ties k l acc :
  good k -> good_keys acc -> good_keys l -> ascending acc ->
  ties k (fold_left (fun run x => insert_sorted lt key x run) l acc)
  = ties k (acc ++ l).
Proof.
  intros Hk. revert acc.
  induction l as [|x l IH]; intros acc Hacc Hl Hs; simpl.
  - by rewrite app_nil_r.
  - apply Forall_cons in Hl as [Hx Hl].
    rewrite IH; [|by apply (good_keys_perm (x :: acc));
                     [rewrite insert_sorted_perm|constructor]
                 |done|by apply insert_sorted_ascending].
    rewrite ties_app, insert_sorted_ties by done.
    by rewrite <- ties_app, <- app_assoc.
Qed.

Lemma list_sort_ties k l :
  good k -> good_keys l -> ties k (list_sort lt key l) = ties k l.
Proof.
  intros Hk Hl. unfold list_sort.
  rewrite fold_insert_ties; [done|done|constructor|done|constructor].
Qed.

Lemma sorted_reverse_ties k l :
  good k -> good_keys l -> ties k (sorted lt key true l) = ties k l.
Proof.
  intros Hk Hl. unfold sorted.
  rewrite ties_reverse, list_sort_ties, ties_reverse, reverse_involutive; [done..|].
  by apply (good_keys_perm l); [rewrite reverse_Permutation|].
Qed.

End Sorting.

(* ===================================================================== *)
(** * [clean_old_cache] removes exactly the stale entries and never raises *)
(* ===================================================================== *)

Lemma for_each_del_cache (ks : list string) (c : gmap string cache_entry)
    (log : list call) :
  NoDup ks -> (forall k, k ∈ ks -> is_Some (c !! k)) ->
  for_each ks del_cache (State c log)
  = (Normal tt, State (fold_left (fun m k => delete k m) ks c) log).
Proof.
  revert c. induction ks as [|k ks IH]; intros c Hnd Hin; [done|].
  apply NoDup_cons in Hnd as [Hk Hnd].
  destruct (Hin k) as [e He]; [apply list_elem_of_here|].
  simpl. unfold bind, del_cache, bind, get_cache, put_cache. simpl.
  rewrite He. apply IH; [done|].
  intros k' Hk'. rewrite lookup_delete_ne.
  - apply Hin. by apply list_elem_of_further.
  - intros ->. done.
Qed.

Lemma lookup_fold_delete (ks : list string) (c : gmap string cache_entry) (k : string) :
  fold_left (fun m k => delete k m) ks c !! k
  = if decide (k ∈ ks) then None else c !! k.
Proof.
  revert c. induction ks as [|k' ks IH]; intros c.
  - done.
  - cbn [fold_left]. rewrite IH.
    destruct (decide (k ∈ ks)) as [Hin|Hin];
      destruct (decide (k ∈ k' :: ks)) as [Hin'|Hin'].
    + done.
    + exfalso. apply Hin'. by apply list_elem_of_further.
    + apply elem_of_cons in Hin' as [->|?]; [apply lookup_delete_eq|done].
    + apply lookup_delete_ne. intros ->. apply Hin', list_elem_of_here.
Qed.

Lemma elem_of_to_delete (now : Z) (c : gmap string cache_entry) (k : string) :
  k ∈ map fst
        (List.filter (fun kv => (ten_minutes <? now - timestamp (snd kv))%Z)
           (map_to_list c))
  <-> exists e, c !! k = Some e /\ (ten_minutes < now - timestamp e)%Z.
Proof.
  rewrite list_elem_of_In, in_map_iff. split.
  - intros [[k' e] [Hk [Hin Hst]%filter_In]]. simpl in *. subst k'.
    exists e. split.
    + by apply elem_of_map_to_list, list_elem_of_In.
    + by apply Z.ltb_lt.
  - intros (e & He & Hst). exists (k, e). split; [done|].
    apply filter_In. split.
    + by apply list_elem_of_In, elem_of_map_to_list.
    + by apply Z.ltb_lt.
Qed.

Lemma NoDup_to_delete (now : Z) (c : gmap string cache_entry) :
  NoDup (map fst
           (List.filter (fun kv => (ten_minutes <? now - timestamp (snd kv))%Z)
              (map_to_list c))).
Proof.
  pose proof (NoDup_fst_map_to_list c) as Hnd.
  induction (map_to_list c) as [|[k e] l IH]; simpl; [constructor|].
  simpl in Hnd. apply NoDup_cons in Hnd as [Hk Hnd].
  destruct (ten_minutes <? now - timestamp e)%Z; simpl; [|by apply IH].
  apply NoDup_cons. split; [|by apply IH].
  intros Hin. apply Hk.
  apply list_elem_of_In, in_map_iff in Hin as [kv [Hkv [Hin _]%filter_In]].
  apply list_elem_of_In, in_map_iff. by exists kv.
Qed.

Lemma lookup_swept (now : Z) (c : gmap string cache_entry) (k : string) (e : cache_entry) :
  swept now c !! k = Some e
  <-> c !! k = Some e /\ (now - timestamp e <= ten_minutes)%Z.
Proof. unfold swept. by rewrite map_lookup_filter_Some. Qed.

Lemma clean_old_cache_run (now : Z) (c : gmap string cache_entry) (log : list call) :
  clean_old_cache now (State c log) = (Normal tt, State (swept now c) log).
Proof.
  unfold clean_old_cache, bind, get_cache. simpl.
  rewrite for_each_del_cache.
  - do 2 f_equal. apply map_eq. intros k.
    rewrite lookup_fold_delete. apply option_eq. intros e.
    rewrite lookup_swept. destruct (decide _) as [Hin|Hin].
    + apply elem_of_to_delete in Hin as (e' & He' & Hst).
      split; [done|]. intros [He Hle]. simplify_eq. lia.
    + split.
      * intros He. split; [done|].
        destruct (decide (now - timestamp e <= ten_minutes)%Z); [done|].
        exfalso. apply Hin, elem_of_to_delete. exists e. split; [done|lia].
      * by intros [He _].
  - apply NoDup_to_delete.
  - intros k (e & He & _)%elem_of_to_delete. by exists e.
Qed.

(* ===================================================================== *)
(** * Running the handler *)
(* ===================================================================== *)

Arguments clean_old_cache : simpl never.
Arguments swept : simpl never.
Arguments sorted : simpl never.
Arguments mood_target : simpl never.
Arguments cache_key : simpl never.
Arguments history_track_ids : simpl never.

Lemma request_data_dict (request : Request) (fields : list (string * json)) :
  get_json request = Some (JDict fields) ->
  request_data request = JDict fields.
Proof. unfold request_data. intros ->. by destruct fields. Qed.

(** An accepted request reaches the cache check with its [user_id] and its
    lowered [mood]. *)
Lemma body_valid_request w request user_id mood s :
  valid_request request user_id mood ->
  vibe_recommend_body w request s = recommend w user_id mood s.
Proof.
  intros [Hm (fields & mood_text & Hj & Hu & Ht & Hmood & ->)].
  unfold vibe_recommend_body.
  apply String.eqb_neq in Hm. rewrite Hm.
  rewrite (request_data_dict _ _ Hj).
  unfold bind, lift, method_get. rewrite Hu, Hmood. simpl.
  by rewrite Ht.
Qed.

Lemma recommend_hit w user_id mood c log e :
  swept (now_sweep w) c !! cache_key user_id mood = Some e ->
  recommend w user_id mood (State c log)
  = (Returned (Response (data e) 200 cors_headers),
     State (swept (now_sweep w) c) log).
Proof.
  intros Hhit. unfold recommend, bind at 1.
  rewrite clean_old_cache_run. unfold bind, get_cache. simpl.
  by rewrite Hhit.
Qed.

Ltac run_handler :=
  unfold bind, try_except, external, lift, ret, return_, raise, get_cache, put_cache;
  simpl.

(** After a cache miss with seed tracks in hand, the handler is at the
    seed-feature fetch; [calls] are the calls made to find the seeds. *)
Lemma recommend_seeds w user_id mood c track_ids :
  swept (now_sweep w) c !! cache_key user_id mood = None ->
  seeds_found w user_id mood track_ids ->
  exists calls,
    (calls = [HistoryQuery user_id] \/ calls = [HistoryQuery user_id; Search mood]) /\
    forall (rest : list json -> M Empty_set),
      (clean_old_cache (now_sweep w) ;;;
       c <- get_cache ;;
       match c !! cache_key user_id mood with
       | Some entry => return_ (Response (data entry) 200 cors_headers)
       | None =>
           history <- external (HistoryQuery user_id) (history_docs w user_id) ;;
           track_ids <-
             match history_track_ids history with
             | [] =>
                 try_except
                   (external (Search mood) (search_ids w mood))
                   (fun _ => return_ (Response (ErrorBody "Failed to search tracks") 500 cors_headers))
             | _ :: _ => ret (history_track_ids history)
             end ;;
           rest track_ids
       end) (State c [])
      = rest track_ids (State (swept (now_sweep w) c) calls).
Proof.
  intros Hmiss (history & Hh & [[Hne ->]|[Hnil Hs]]).
  - exists [HistoryQuery user_id]. split; [by left|]. intros rest.
    unfold bind at 1. rewrite clean_old_cache_run. run_handler.
    rewrite Hmiss, Hh. destruct (history_track_ids history); done.
  - exists [HistoryQuery user_id; Search mood]. split; [by right|]. intros rest.
    unfold bind at 1. rewrite clean_old_cache_run. run_handler.
    rewrite Hmiss, Hh, Hnil. simpl. by rewrite Hs.
Qed.

(** The run of the handler that reaches the scoring loop. *)
Lemma recommend_scoring w user_id mood c track_ids fs recs :
  swept (now_sweep w) c !! cache_key user_id mood = None ->
  seeds_found w user_id mood track_ids ->
  track_ids <> [] ->
  seed_audio_features w track_ids = Ok fs ->
  omap id fs <> [] ->
  recommendations_tracks w (take 5 track_ids) = Ok recs ->
  exists seed_calls,
    let calls :=
      seed_calls ++ [AudioFeaturesFetch track_ids;
                     RecommendationsFetch (take 5 track_ids);
                     AudioFeaturesFetch (map track_id recs)] in
    let rec_features :=
      match rec_audio_features w (map track_id recs) with
      | Ok l => l
      | Err _ => replicate (length (map track_id recs)) None
      end in
    recommend w user_id mood (State c [])
    = match score_loop (np_mean (map feature_vec (omap id fs))) (mood_target mood)
              rec_features (enumerate recs) [] with
      | Ok scored =>
          let result :=
            RecommendationsBody (take 10 (sorted PrimFloat.ltb score true scored)) in
          (Returned (Response result 200 cors_headers),
           State (<[cache_key user_id mood := CacheEntry result (now_store w)]>
                    (swept (now_sweep w) c)) calls)
      | Err e => (Raised e, State (swept (now_sweep w) c) calls)
      end.
Proof.
  intros Hmiss Hseeds Hne Hfs Hsome Hrecs.
  destruct (recommend_seeds _ _ _ _ _ Hmiss Hseeds) as (seed_calls & _ & Hrun).
  exists seed_calls. simpl. unfold recommend. rewrite Hrun.
  remember (take 5 track_ids) as seeds eqn:Hseeds5.
  destruct track_ids as [|t0 ids]; [done|].
  run_handler. rewrite Hfs. simpl.
  destruct (omap id fs) as [|f0 features] eqn:Hom; [done|].
  rewrite Hrecs. simpl.
  destruct (rec_audio_features w (map track_id recs)) as [rec_fs|e]; simpl;
    destruct (score_loop _ _ _ _ _); simpl;
    by rewrite <- !app_assoc.
Qed.

(* ===================================================================== *)
(** * The scoring loop *)
(* ===================================================================== *)

Lemma map_result_Forall2 {A B : Type} (f : A -> result B) (l : list A) (ys : list B) :
  map_result f l = Ok ys <-> Forall2 (fun x y => f x = Ok y) l ys.
Proof.
  revert ys. induction l as [|x l IH]; intros ys; simpl.
  - split; [intros [= <-]; constructor|by intros ->%Forall2_nil_inv_l].
  - unfold result_bind. split.
    + destruct (f x) as [y|e] eqn:Hx; [|done].
      destruct (map_result f l) as [ys'|e] eqn:Hl; [|done].
      intros [= <-]. constructor; [done|]. by apply IH.
    + intros (y & ys' & Hx & Hl & ->)%Forall2_cons_inv_l.
      rewrite Hx. apply IH in Hl. by rewrite Hl.
Qed.

Lemma map_result_length {A B : Type} (f : A -> result B) (l : list A) (ys : list B) :
  map_result f l = Ok ys -> length ys = length l.
Proof. intros H%map_result_Forall2. symmetry. by eapply Forall2_length. Qed.

(** The loop, started at any index and with any list collected so far. *)
Lemma score_loop_from user_vec target rec_features recs n scored :
  length recs <= length (drop n rec_features) ->
  score_loop user_vec target rec_features
    (imap (fun i t => (n + i, t)) recs) scored
  = (entries <--
       map_result (fun tf => score_track user_vec target tf.1 tf.2)
         (with_features recs (drop n rec_features)) ;;
     Ok (scored ++ entries)).
Proof.
  revert n scored. induction recs as [|t recs IH]; intros n scored Hlen.
  - simpl. by rewrite app_nil_r.
  - simpl in Hlen.
    destruct (rec_features !! n) as [o|] eqn:Hn.
    2:{ apply lookup_ge_None in Hn. rewrite length_drop in Hlen. lia. }
    rewrite (drop_S _ _ _ Hn) in Hlen |- *. simpl in Hlen.
    cbn [imap score_loop]. rewrite Nat.add_0_r.
    unfold list_index. rewrite Hn. cbn [result_bind].
    assert (imap ((fun i t0 => (n + i, t0)) ∘ S) recs
            = imap (fun i t0 => (S n + i, t0)) recs) as ->.
    { apply imap_ext. intros i x _. simpl. f_equal. lia. }
    destruct o as [f|]; cbn [with_features map_result].
    + unfold result_bind at 1 3. cbn [fst snd].
      destruct (score_track user_vec target t f) as [entry|e]; [|done].
      rewrite IH by lia. unfold result_bind.
      destruct (map_result _ _); [|done].
      by rewrite <- app_assoc.
    + apply IH. lia.
Qed.

(** The loop as the handler runs it. *)
Lemma score_loop_enumerate user_vec target rec_features recs :
  length recs <= length rec_features ->
  score_loop user_vec target rec_features (enumerate recs) []
  = map_result (fun tf => score_track user_vec target tf.1 tf.2)
      (with_features recs rec_features).
Proof.
  intros Hlen. unfold enumerate.
  rewrite (score_loop_from _ _ _ _ 0) by done.
  rewrite drop_0. unfold result_bind. by destruct (map_result _ _).
Qed.

Lemma score_track_score user_vec target t f entry :
  score_track user_vec target t f = Ok entry ->
  weighted_score user_vec target f = Ok (score entry).
Proof.
  unfold score_track, weighted_score, result_bind.
  destruct (cosine_similarity user_vec _) as [cu|]; [|done].
  destruct (cosine_similarity target _) as [ct|]; [|done].
  destruct (list_index _ _); [|done].
  intros [= <-]. simpl.
  by rewrite (float_mul_comm 0.6 cu), (float_mul_comm 0.4 ct).
Qed.

Lemma with_features_replicate_None recs n :
  with_features recs (replicate n None) = [].
Proof.
  revert n. induction recs as [|t recs IH]; intros [|n]; simpl; auto.
Qed.

Lemma with_features_length recs rec_features :
  length (with_features recs rec_features) <= length recs.
Proof.
  revert rec_features. induction recs as [|t recs IH]; intros [|[f|] fs]; simpl;
    try lia; specialize (IH fs); lia.
Qed.

(* ===================================================================== *)
(** * Every run of the handler *)
(* ===================================================================== *)

Ltac no_recommendations_fetch :=
  let ids := fresh "ids" in
  let Hin := fresh "Hin" in
  intros ids Hin;
  repeat (apply elem_of_cons in Hin as [Hin|Hin]; [discriminate Hin|]);
  by apply not_elem_of_nil in Hin.

Ltac early_return :=
  left; split; [done|]; eexists _, _; split; [reflexivity|];
  let r := fresh "r" in
  let Hs := fresh "Hs" in
  intros r [= <-] Hs;
  first [discriminate Hs | split; [done|no_recommendations_fetch]].

Ltac scoring_found recs scored Hloop :=
  right; split; [done|];
  first
    [ eexists _, _, _, recs, scored, _, [_]; split; [exact Hloop|]; reflexivity
    | eexists _, _, _, recs, scored, _, [_; _]; split; [exact Hloop|]; reflexivity ].

Ltac scoring_raised :=
  left; split; [done|]; eexists _, _; split; [reflexivity|]; intros ? [=].

(** The cases of the handler from the seed-feature fetch on; [Hrun] is the
    equation of the run. *)
Ltac scoring_tail w Hrun :=
  let fs := fresh "fs" in
  let recs := fresh "recs" in
  let scored := fresh "scored" in
  let Hloop := fresh "Hloop" in
  match type of Hrun with
  | context [seed_audio_features w ?ids] =>
      destruct (seed_audio_features w ids) as [fs|?]; simpl in Hrun;
      [|subst; early_return];
      destruct (omap id fs) as [|? ?]; simpl in Hrun; [subst; early_return|]
  end;
  match type of Hrun with
  | context [recommendations_tracks w ?seeds] =>
      destruct (recommendations_tracks w seeds) as [recs|?]; simpl in Hrun;
      [|subst; early_return]
  end;
  destruct (rec_audio_features w (map track_id recs)) as [?|?]; simpl in Hrun;
  match type of Hrun with
  | context [score_loop ?u ?t ?rf ?its ?acc] =>
      destruct (score_loop u t rf its acc) as [scored|?] eqn:Hloop; simpl in Hrun
  end;
  subst;
  [ scoring_found recs scored Hloop | scoring_raised
  | scoring_found recs scored Hloop | scoring_raised ].

(** What a run of [recommend] is, whatever the world answers: a cache hit,
    or a miss that leaves the swept cache as it is, or a miss that completes
    the scoring loop and stores its result. *)
Lemma recommend_runs w user_id mood c :
  let cache1 := swept (now_sweep w) c in
  let key := cache_key user_id mood in
  (exists e,
     cache1 !! key = Some e /\
     recommend w user_id mood (State c [])
     = (Returned (Response (data e) 200 cors_headers), State cache1 []))
  \/ (cache1 !! key = None /\
      exists o calls,
        recommend w user_id mood (State c [])
        = (o, State cache1 (HistoryQuery user_id :: calls)) /\
        (forall r, o = Returned r -> status r = 200%Z ->
           payload r = RecommendationsBody [] /\
           forall ids, RecommendationsFetch ids ∉ calls))
  \/ (cache1 !! key = None /\
      exists user_vec target rec_features recs scored seeds calls,
        score_loop user_vec target rec_features (enumerate recs) [] = Ok scored /\
        let result :=
          RecommendationsBody (take 10 (sorted PrimFloat.ltb score true scored)) in
        recommend w user_id mood (State c [])
        = (Returned (Response result 200 cors_headers),
           State (<[key := CacheEntry result (now_store w)]> cache1)
             (HistoryQuery user_id :: calls ++
                [RecommendationsFetch seeds; AudioFeaturesFetch (map track_id recs)]))).
Proof.
  intros cache1 key. subst cache1 key.
  destruct (swept (now_sweep w) c !! cache_key user_id mood) as [e|] eqn:Hkey.
  { left. exists e. split; [done|]. by apply recommend_hit. }
  right.
  remember (recommend w user_id mood (State c [])) as run eqn:Hrun.
  unfold recommend in Hrun. unfold bind at 1 in Hrun.
  rewrite clean_old_cache_run in Hrun.
  unfold bind, try_except, external, lift, ret, return_, raise, get_cache,
    put_cache in Hrun.
  simpl in Hrun. rewrite Hkey in Hrun.
  destruct (history_docs w user_id) as [history|e]; simpl in Hrun.
  2:{ subst. left. split; [done|]. eexists _, []. split; [done|]. intros r [=]. }
  destruct (history_track_ids history) as [|t0 ids0]; simpl in Hrun.
  - destruct (search_ids w mood) as [[|t0 ids0]|e]; simpl in Hrun.
    + subst. early_return.
    + scoring_tail w Hrun.
    + subst. early_return.
  - scoring_tail w Hrun.
Qed.

(** What the statements before the cache check do with a request. *)
Lemma body_runs w request s :
  (method request = "OPTIONS" /\
   vibe_recommend_body w request s
   = (Returned (Response EmptyBody 204 preflight_headers), s))
  \/ (method request <> "OPTIONS" /\
      exists e, vibe_recommend_body w request s = (Raised e, s))
  \/ (method request <> "OPTIONS" /\
      vibe_recommend_body w request s
      = (Returned (Response (ErrorBody "user_id required") 400 cors_headers), s))
  \/ (exists user_id mood,
        valid_request request user_id mood /\
        vibe_recommend_body w request s = recommend w user_id mood s).
Proof.
  destruct (String.eqb_spec (method request) "OPTIONS") as [Hm|Hm].
  { left. split; [done|]. unfold vibe_recommend_body.
    by rewrite (proj2 (String.eqb_eq _ _) Hm). }
  right.
  remember (vibe_recommend_body w request s) as run eqn:Hrun.
  unfold vibe_recommend_body in Hrun.
  rewrite (proj2 (String.eqb_neq _ _) Hm) in Hrun.
  assert (forall fields,
    request_data request = JDict fields ->
    (exists e, run = (Raised e, s))
    \/ run = (Returned (Response (ErrorBody "user_id required") 400 cors_headers), s)
    \/ (exists user_id mood_text,
          dict_lookup fields "user_id" = Some user_id /\
          truthy user_id = true /\
          default (JStr "chill") (dict_lookup fields "mood") = JStr mood_text /\
          run = recommend w user_id (str_lower mood_text) s)) as Hdict.
  { intros fields Hdata. rewrite Hdata in Hrun.
    unfold bind, lift, method_get in Hrun. simpl in Hrun.
    destruct (default (JStr "chill") (dict_lookup fields "mood"))
      as [| | | |mood_text| |] eqn:Hmood; simpl in Hrun;
      try (left; by eexists).
    destruct (dict_lookup fields "user_id") as [user_id|] eqn:Hu; simpl in Hrun.
    - destruct (truthy user_id) eqn:Ht; simpl in Hrun.
      + right; right. by exists user_id, mood_text.
      + right; by left.
    - right; by left. }
  unfold request_data in *.
  destruct (get_json request) as [v|] eqn:Hj.
  - destruct (truthy v) eqn:Hv.
    + destruct v as [| | | | |items|fields];
        try (left; split; [done|]; subst run; by eexists).
      destruct (Hdict fields eq_refl)
        as [He|[H400|(user_id & mood_text & Hu & Ht & Hmood & Hrun')]].
      * left. by split.
      * right; left. by split.
      * right; right. exists user_id, (str_lower mood_text).
        split; [|done]. split; [done|]. by exists fields, mood_text.
    + destruct (Hdict [] eq_refl)
        as [He|[H400|(user_id & mood_text & Hu & _)]]; [| |done].
      * left. by split.
      * right; left. by split.
  - destruct (Hdict [] eq_refl)
      as [He|[H400|(user_id & mood_text & Hu & _)]]; [| |done].
    + left. by split.
    + right; left. by split.
Qed.

Lemma score_loop_from_ok user_vec target rec_features recs n acc scored :
  score_loop user_vec target rec_features
    (imap (fun i t => (n + i, t)) recs) acc = Ok scored ->
  length recs <= length (drop n rec_features).
Proof.
  revert n acc. induction recs as [|t recs IH]; intros n acc; [simpl; lia|].
  cbn [imap score_loop]. rewrite Nat.add_0_r. unfold list_index.
  destruct (rec_features !! n) as [o|] eqn:Hn; [|done].
  cbn [result_bind]. rewrite (drop_S _ _ _ Hn).
  assert (imap ((fun i t0 => (n + i, t0)) ∘ S) recs
          = imap (fun i t0 => (S n + i, t0)) recs) as ->.
  { apply imap_ext. intros i x _. simpl. f_equal. lia. }
  destruct o as [f|].
  - unfold result_bind. destruct (score_track user_vec target t f); [|done].
    intros H%IH. simpl. lia.
  - intros H%IH. simpl. lia.
Qed.

(** A loop that completes has collected the entries of the candidates that
    have features, in their order. *)
Lemma score_loop_ok user_vec target rec_features recs scored :
  score_loop user_vec target rec_features (enumerate recs) [] = Ok scored ->
  map_result (fun tf => score_track user_vec target tf.1 tf.2)
    (with_features recs rec_features) = Ok scored.
Proof.
  intros Hloop. rewrite <- score_loop_enumerate; [done|].
  apply (score_loop_from_ok _ _ _ _ 0) in Hloop. by rewrite drop_0 in Hloop.
Qed.

Lemma score_track_id user_vec target t f entry :
  score_track user_vec target t f = Ok entry -> st_id entry = track_id t.
Proof.
  unfold score_track, result_bind.
  destruct (cosine_similarity user_vec _); [|done].
  destruct (cosine_similarity target _); [|done].
  destruct (list_index _ _); [|done].
  by intros [= <-].
Qed.

Lemma score_loop_no_features user_vec target recs n :
  length recs <= n ->
  score_loop user_vec target (replicate n None) (enumerate recs) [] = Ok [].
Proof.
  intros Hn. rewrite score_loop_enumerate; [|by rewrite length_replicate].
  by rewrite with_features_replicate_None.
Qed.

(** The run of an accepted request that reaches the candidates. *)
Lemma vibe_recommend_scoring w request c user_id mood track_ids fs recs :
  reaches_candidates w request c user_id mood track_ids fs recs ->
  exists calls,
    vibe_recommend w request c
    = match score_loop (np_mean (map feature_vec (omap id fs))) (mood_target mood)
              (fetched_rec_features w recs) (enumerate recs) [] with
      | Ok scored =>
          let result :=
            RecommendationsBody (take 10 (sorted PrimFloat.ltb score true scored)) in
          (Response result 200 cors_headers,
           <[cache_key user_id mood := CacheEntry result (now_store w)]>
             (swept (now_sweep w) c),
           calls)
      | Err e => (Response (ErrorBody e) 500 cors_headers, swept (now_sweep w) c, calls)
      end.
Proof.
  intros (Hvalid & Hmiss & Hseeds & Hne & Hfs & Hsome & Hrecs).
  destruct (recommend_scoring _ _ _ _ _ _ _ Hmiss Hseeds Hne Hfs Hsome Hrecs)
    as (seed_calls & Hrun).
  simpl in Hrun.
  exists (seed_calls ++ [AudioFeaturesFetch track_ids;
                         RecommendationsFetch (take 5 track_ids);
                         AudioFeaturesFetch (map track_id recs)]).
  unfold vibe_recommend.
  rewrite (body_valid_request _ _ _ _ _ Hvalid), Hrun.
  unfold fetched_rec_features. by destruct (score_loop _ _ _ _ _).
Qed.

(* ===================================================================== *)
(** * Properties of the handler *)
(* ===================================================================== *)

(** C1 (scoring).  On a run that reaches the candidates and whose scoring
    loop completes, the list [scored] holds one entry for each candidate
    that has a feature entry, in the candidates' order, and none for a
    candidate whose entry is [None]; the entry carries the candidate's id
    and, as its score, [round(cos(user_vec, vec) * 0.6 + cos(target, vec) *
    0.4, 3)].  The response is built from that list. *)
Theorem scoring_weights_and_skips w request c user_id mood track_ids fs recs
    rec_features scored :
  reaches_candidates w request c user_id mood track_ids fs recs ->
  rec_audio_features w (map track_id recs) = Ok rec_features ->
  score_loop (np_mean (map feature_vec (omap id fs))) (mood_target mood)
    rec_features (enumerate recs) [] = Ok scored ->
  Forall2
    (fun tf entry =>
       st_id entry = track_id tf.1 /\
       weighted_score (np_mean (map feature_vec (omap id fs))) (mood_target mood) tf.2
       = Ok (score entry))
    (with_features recs rec_features) scored
  /\ exists cache' calls,
       vibe_recommend w request c
       = (Response
            (RecommendationsBody (take 10 (sorted PrimFloat.ltb score true scored)))
            200 cors_headers,
          cache', calls).
Proof.
  intros Hreach Hrf Hloop. split.
  - apply score_loop_ok, map_result_Forall2 in Hloop.
    eapply Forall2_impl; [exact Hloop|].
    intros [t f] entry Hentry. simpl in *. split.
    + by eapply score_track_id.
    + by eapply score_track_score.
  - destruct (vibe_recommend_scoring _ _ _ _ _ _ _ _ Hreach) as (calls & Hrun).
    unfold fetched_rec_features in Hrun. rewrite Hrf, Hloop in Hrun.
    by eexists _, _.
Qed.

(** C2 (ranking).  On a run whose scoring loop completes with scores that
    are numbers, the recommendations returned are the first ten entries of
    the scored list put in descending order of score, entries of equal score
    keeping the order they had; so there are at most ten of them and at most
    as many as candidates with a feature entry. *)
Theorem recommendations_sorted_stable_top10 w request c user_id mood track_ids
    fs recs scored :
  reaches_candidates w request c user_id mood track_ids fs recs ->
  score_loop (np_mean (map feature_vec (omap id fs))) (mood_target mood)
    (fetched_rec_features w recs) (enumerate recs) [] = Ok scored ->
  good_keys score not_nan scored ->
  exists top cache' calls,
    vibe_recommend w request c
    = (Response (RecommendationsBody top) 200 cors_headers, cache', calls) /\
    top = take 10 (sorted PrimFloat.ltb score true scored) /\
    sorted PrimFloat.ltb score true scored ≡ₚ scored /\
    descending PrimFloat.ltb score (sorted PrimFloat.ltb score true scored) /\
    (forall k, not_nan k ->
       ties PrimFloat.ltb score k (sorted PrimFloat.ltb score true scored)
       = ties PrimFloat.ltb score k scored) /\
    length top <= 10 /\
    length top <= length (with_features recs (fetched_rec_features w recs)).
Proof.
  intros Hreach Hloop Hgood.
  destruct (vibe_recommend_scoring _ _ _ _ _ _ _ _ Hreach) as (calls & Hrun).
  rewrite Hloop in Hrun. simpl in Hrun.
  eexists _, _, _. split; [exact Hrun|]. split; [done|].
  split_and!.
  - apply sorted_perm.
  - by apply (sorted_reverse_descending PrimFloat.ltb score not_nan
                float_ltb_irrefl float_ltb_trans).
  - intros k Hk.
    by apply (sorted_reverse_ties PrimFloat.ltb score not_nan
                float_ltb_irrefl float_ltb_trans float_ltb_cotrans).
  - rewrite length_take. lia.
  - rewrite length_take, (Permutation_length (sorted_perm _ _ _ _)).
    apply score_loop_ok, map_result_length in Hloop. lia.
Qed.

(** C7 (candidate features unavailable).  When the batched feature fetch
    for the candidates raises, the loop reads one [None] per candidate,
    skips every candidate, and the handler answers 200 with an empty
    recommendations list, which it stores in the cache. *)
Theorem rec_features_failure_degrades_to_empty w request c user_id mood
    track_ids fs recs e :
  reaches_candidates w request c user_id mood track_ids fs recs ->
  rec_audio_features w (map track_id recs) = Err e ->
  fetched_rec_features w recs = replicate (length recs) None
  /\ with_features recs (fetched_rec_features w recs) = []
  /\ exists calls,
       vibe_recommend w request c
       = (Response (RecommendationsBody []) 200 cors_headers,
          <[cache_key user_id mood :=
              CacheEntry (RecommendationsBody []) (now_store w)]>
            (swept (now_sweep w) c),
          calls).
Proof.
  intros Hreach Hrf.
  assert (fetched_rec_features w recs = replicate (length recs) None) as Hnone.
  { unfold fetched_rec_features. by rewrite Hrf, length_map. }
  split; [done|]. split.
  - rewrite Hnone. apply with_features_replicate_None.
  - destruct (vibe_recommend_scoring _ _ _ _ _ _ _ _ Hreach) as (calls & Hrun).
    exists calls. rewrite Hrun, Hnone.
    by rewrite score_loop_no_features.
Qed.

(** A body whose [mood] is not a string, or that is a truthy JSON value
    other than an object, raises before [user_id] is tested: the answer is
    the 500 of the outer [except]. *)
Lemma mood_not_a_string_500 w request c fields v :
  method request <> "OPTIONS" ->
  request_data request = JDict fields ->
  dict_lookup fields "mood" = Some v ->
  (forall s, v <> JStr s) ->
  vibe_recommend w request c
  = (Response (ErrorBody (attribute_error v "lower")) 500 cors_headers, c, []).
Proof.
  intros Hm Hdata Hmood Hv. unfold vibe_recommend, vibe_recommend_body.
  rewrite (proj2 (String.eqb_neq _ _) Hm), Hdata.
  unfold bind, lift, method_get. rewrite Hmood. simpl.
  destruct v; try done. by destruct (Hv s).
Qed.

(** C3 (validation), as the code has it.  A request that is not a preflight
    and whose body is absent, not JSON, falsy, or an object in which [mood]
    is absent or a string, is answered 400 with the body [{'error':
    'user_id required'}] when it has no truthy [user_id]; nothing is swept,
    stored or fetched. *)
Theorem missing_user_id_400 w request c fields mood_text :
  method request <> "OPTIONS" ->
  request_data request = JDict fields ->
  truthy (default JNull (dict_lookup fields "user_id")) = false ->
  default (JStr "chill") (dict_lookup fields "mood") = JStr mood_text ->
  vibe_recommend w request c
  = (Response (ErrorBody "user_id required") 400 cors_headers, c, []).
Proof.
  intros Hm Hdata Hu Hmood. unfold vibe_recommend, vibe_recommend_body.
  rewrite (proj2 (String.eqb_neq _ _) Hm), Hdata.
  unfold bind, lift, method_get. rewrite Hmood. simpl. by rewrite Hu.
Qed.

(** C4 (cache hit).  An accepted request whose key is in the cache after the
    sweep is answered 200 with the stored payload, and no call is made to
    the history store or to the catalog. *)
Theorem cache_hit_returns_payload_without_calls w request c user_id mood e :
  valid_request request user_id mood ->
  swept (now_sweep w) c !! cache_key user_id mood = Some e ->
  vibe_recommend w request c
  = (Response (data e) 200 cors_headers, swept (now_sweep w) c, []).
Proof.
  intros Hvalid Hhit. unfold vibe_recommend.
  by rewrite (body_valid_request _ _ _ _ _ Hvalid), (recommend_hit _ _ _ _ _ _ Hhit).
Qed.

(** Every run of the function, whatever the request and the world. *)
Lemma vibe_recommend_runs w request c :
  (exists r, vibe_recommend w request c = (r, c, []) /\ status r <> 200%Z)
  \/ exists user_id mood,
       valid_request request user_id mood /\
       let cache1 := swept (now_sweep w) c in
       let key := cache_key user_id mood in
       (exists e,
          cache1 !! key = Some e /\
          vibe_recommend w request c = (Response (data e) 200 cors_headers, cache1, []))
       \/ (cache1 !! key = None /\
           exists r calls,
             vibe_recommend w request c = (r, cache1, HistoryQuery user_id :: calls) /\
             (status r = 200%Z ->
                payload r = RecommendationsBody [] /\
                forall ids, RecommendationsFetch ids ∉ calls))
       \/ (cache1 !! key = None /\
           exists user_vec target rec_features recs scored seeds calls,
             score_loop user_vec target rec_features (enumerate recs) [] = Ok scored /\
             let result :=
               RecommendationsBody (take 10 (sorted PrimFloat.ltb score true scored)) in
             vibe_recommend w request c
             = (Response result 200 cors_headers,
                <[key := CacheEntry result (now_store w)]> cache1,
                HistoryQuery user_id :: calls ++
                  [RecommendationsFetch seeds; AudioFeaturesFetch (map track_id recs)])).
Proof.
  unfold vibe_recommend.
  destruct (body_runs w request (State c []))
    as [[_ ->]|[[_ [e ->]]|[[_ ->]|(user_id & mood & Hvalid & ->)]]].
  - left. by eexists.
  - left. by eexists.
  - left. by eexists.
  - right. exists user_id, mood. split; [done|]. simpl.
    destruct (recommend_runs w user_id mood c)
      as [(e & He & ->)|[(Hmiss & o & calls & -> & Ho)|
          (Hmiss & u & tg & rf & recs & scored & seeds & calls & Hloop & Hrun)]].
    + left. by exists e.
    + right; left. split; [done|].
      destruct o as [[]|r|e].
      * exists r, calls. split; [done|]. intros Hs. by apply Ho.
      * eexists _, calls. split; [done|]. simpl. done.
    + right; right. split; [done|].
      exists u, tg, rf, recs, scored, seeds, calls. split; [done|].
      simpl in *. by rewrite Hrun.
Qed.

(** C5 (expiry).  The sweep never raises and leaves exactly the entries at
    most ten minutes old; the handler looks its key up in the swept cache,
    so an accepted request whose entry is older than ten minutes goes on to
    the history fetch, and a payload served from the cache (a 200 without
    any call) comes from an entry at most ten minutes old. *)
Theorem stale_entries_swept_before_lookup w request c :
  (forall log, exists cache1,
     clean_old_cache (now_sweep w) (State c log) = (Normal tt, State cache1 log) /\
     forall k e,
       cache1 !! k = Some e
       <-> c !! k = Some e /\ (now_sweep w - timestamp e <= ten_minutes)%Z)
  /\ (forall user_id mood e,
        valid_request request user_id mood ->
        c !! cache_key user_id mood = Some e ->
        (ten_minutes < now_sweep w - timestamp e)%Z ->
        exists r cache' calls,
          vibe_recommend w request c = (r, cache', HistoryQuery user_id :: calls))
  /\ (forall r cache',
        vibe_recommend w request c = (r, cache', []) ->
        status r = 200%Z ->
        exists user_id mood e,
          valid_request request user_id mood /\
          c !! cache_key user_id mood = Some e /\
          payload r = data e /\
          (now_sweep w - timestamp e <= ten_minutes)%Z).
Proof.
  split_and!.
  - intros log. exists (swept (now_sweep w) c). split.
    + apply clean_old_cache_run.
    + intros k e. apply lookup_swept.
  - intros user_id mood e Hvalid He Hstale.
    assert (swept (now_sweep w) c !! cache_key user_id mood = None) as Hmiss.
    { apply eq_None_not_Some. intros [e' [He' Hfresh]%lookup_swept].
      simplify_eq. lia. }
    unfold vibe_recommend. rewrite (body_valid_request _ _ _ _ _ Hvalid).
    destruct (recommend_runs w user_id mood c)
      as [(e' & He' & _)|[(_ & o & calls & -> & _)|
          (_ & u & tg & rf & recs & scored & seeds & calls & _ & Hrun)]].
    + simpl in He'. congruence.
    + destruct o as [[]|r|e']; by eexists _, _, _.
    + simpl in Hrun. rewrite Hrun. by eexists _, _, _.
  - intros r cache' Hrun Hs.
    destruct (vibe_recommend_runs w request c)
      as [(r' & Hrun' & Hs')|(user_id & mood & Hvalid & Hcases)].
    { congruence. }
    simpl in Hcases.
    destruct Hcases
      as [(e & [He Hfresh]%lookup_swept & Hrun')|[(_ & r' & calls & Hrun' & _)|
          (_ & u & tg & rf & recs & scored & seeds & calls & _ & Hrun')]].
    + exists user_id, mood, e. rewrite Hrun in Hrun'. by simplify_eq.
    + rewrite Hrun in Hrun'. simplify_eq.
    + rewrite Hrun in Hrun'. simplify_eq.
Qed.

(** C10 (cache writes).  The cache a request leaves is the one it found,
    or that one swept, or the swept one with the result of a completed
    scoring loop stored under the request's key; it is one of the first two
    whenever the answer is not a 200 (preflight, 400, every 500) or no
    recommendation fetch was made (cache hit, empty list for want of seeds
    or of seed features). *)
Theorem cache_written_only_after_scoring w request c :
  exists r cache' calls,
    vibe_recommend w request c = (r, cache', calls) /\
    ((cache' = c \/ cache' = swept (now_sweep w) c)
     \/ exists user_id mood user_vec target rec_features recs scored,
          valid_request request user_id mood /\
          swept (now_sweep w) c !! cache_key user_id mood = None /\
          score_loop user_vec target rec_features (enumerate recs) [] = Ok scored /\
          r = Response
                (RecommendationsBody (take 10 (sorted PrimFloat.ltb score true scored)))
                200 cors_headers /\
          cache' = <[cache_key user_id mood := CacheEntry (payload r) (now_store w)]>
                     (swept (now_sweep w) c)) /\
    (status r <> 200%Z \/ (forall ids, RecommendationsFetch ids ∉ calls) ->
     cache' = c \/ cache' = swept (now_sweep w) c).
Proof.
  destruct (vibe_recommend_runs w request c)
    as [(r & Hrun & Hs)|(user_id & mood & Hvalid & Hcases)].
  { exists r, c, []. split; [done|]. split; [by left; left|by left]. }
  simpl in Hcases.
  destruct Hcases
    as [(e & _ & Hrun)|[(_ & r & calls & Hrun & _)|
        (Hmiss & u & tg & rf & recs & scored & seeds & calls & Hloop & Hrun)]].
  - eexists _, _, _. split; [exact Hrun|]. split; [by left; right|by right].
  - eexists _, _, _. split; [exact Hrun|]. split; [by left; right|by right].
  - eexists _, _, _. split; [exact Hrun|]. split.
    + right. by exists user_id, mood, u, tg, rf, recs, scored.
    + intros [Hs|Hnone]; [done|]. exfalso. apply (Hnone seeds).
      apply list_elem_of_further, elem_of_app. right. apply list_elem_of_here.
Qed.

Lemma mood_map_lookup (mood : string) (v : list float) :
  mood_map !! mood = Some v ->
  (mood, v) ∈ [("happy", [0.8; 0.9; 0.8]);
               ("sad", [0.2; 0.3; 0.3]);
               ("energetic", [0.9; 0.6; 0.9]);
               ("chill", [0.4; 0.5; 0.4]);
               ("focus", [0.6; 0.4; 0.5]);
               ("party", [0.9; 0.7; 0.95])]%float.
Proof. unfold mood_map. apply elem_of_list_to_map_2. Qed.

(** C6 (mood target).  A mood that is not one of the six of the table has
    the target [0.5, 0.5, 0.5]; each of the six has the vector of the table;
    and every component of every target lies between 0 and 1. *)
Theorem mood_target_table :
  (forall mood, mood ∉ known_moods -> mood_target mood = [0.5; 0.5; 0.5]%float)
  /\ mood_target "happy" = [0.8; 0.9; 0.8]%float
  /\ mood_target "sad" = [0.2; 0.3; 0.3]%float
  /\ mood_target "energetic" = [0.9; 0.6; 0.9]%float
  /\ mood_target "chill" = [0.4; 0.5; 0.4]%float
  /\ mood_target "focus" = [0.6; 0.4; 0.5]%float
  /\ mood_target "party" = [0.9; 0.7; 0.95]%float
  /\ (forall mood, Forall (fun x => unit_interval x = true) (mood_target mood)).
Proof.
  split_and!; try reflexivity.
  - intros mood Hmood. unfold mood_target.
    destruct (mood_map !! mood) as [v|] eqn:Hv; [|done].
    exfalso. apply Hmood. apply mood_map_lookup in Hv.
    unfold known_moods.
    repeat (apply elem_of_cons in Hv as [[= -> _]|Hv]; [set_solver|]).
    by apply not_elem_of_nil in Hv.
  - intros mood. unfold mood_target.
    destruct (mood_map !! mood) as [v|] eqn:Hv; simpl.
    + apply mood_map_lookup in Hv.
      repeat (apply elem_of_cons in Hv as [[= _ ->]|Hv];
              [by repeat constructor|]).
      by apply not_elem_of_nil in Hv.
    + by repeat constructor.
Qed.

(** C8 (nothing to seed with).  On an accepted request that misses the
    cache, when no seed track is left after the history read and the search
    by mood, or when no seed track has a feature entry, the answer is 200
    with an empty recommendations list, and the cache is left as swept. *)
Theorem no_seeds_or_no_features_is_empty_200 w request c user_id mood track_ids :
  valid_request request user_id mood ->
  swept (now_sweep w) c !! cache_key user_id mood = None ->
  seeds_found w user_id mood track_ids ->
  track_ids = [] \/
  (exists fs, seed_audio_features w track_ids = Ok fs /\ omap id fs = []) ->
  exists calls,
    vibe_recommend w request c
    = (Response (RecommendationsBody []) 200 cors_headers,
       swept (now_sweep w) c, calls).
Proof.
  intros Hvalid Hmiss Hseeds Hnone.
  destruct (recommend_seeds _ _ _ _ _ Hmiss Hseeds) as (calls & _ & Hrun).
  unfold vibe_recommend. rewrite (body_valid_request _ _ _ _ _ Hvalid).
  unfold recommend. rewrite Hrun.
  destruct track_ids as [|t0 ids].
  - by eexists.
  - destruct Hnone as [?|(fs & Hfs & Hom)]; [done|].
    run_handler. rewrite Hfs. simpl. rewrite Hom. by eexists.
Qed.

(** C9 (failures of the collaborators).  On an accepted request that misses
    the cache: when the history fetch raises, nothing catches it before the
    outer [except], and the answer is 500 with the message of the exception;
    when the search, the seed-feature fetch or the recommendation fetch
    raises, the answer is 500 with the fixed message of that step. *)
Theorem history_failure_is_raw_500 w request c user_id mood :
  valid_request request user_id mood ->
  swept (now_sweep w) c !! cache_key user_id mood = None ->
  (forall e,
     history_docs w user_id = Err e ->
     vibe_recommend w request c
     = (Response (ErrorBody e) 500 cors_headers, swept (now_sweep w) c,
        [HistoryQuery user_id]))
  /\ (forall history e,
        history_docs w user_id = Ok history ->
        history_track_ids history = [] ->
        search_ids w mood = Err e ->
        vibe_recommend w request c
        = (Response (ErrorBody "Failed to search tracks") 500 cors_headers,
           swept (now_sweep w) c, [HistoryQuery user_id; Search mood]))
  /\ (forall track_ids e,
        seeds_found w user_id mood track_ids ->
        track_ids <> [] ->
        seed_audio_features w track_ids = Err e ->
        exists calls,
          vibe_recommend w request c
          = (Response (ErrorBody "Failed to get audio features") 500 cors_headers,
             swept (now_sweep w) c, calls))
  /\ (forall track_ids fs e,
        seeds_found w user_id mood track_ids ->
        track_ids <> [] ->
        seed_audio_features w track_ids = Ok fs ->
        omap id fs <> [] ->
        recommendations_tracks w (take 5 track_ids) = Err e ->
        exists calls,
          vibe_recommend w request c
          = (Response (ErrorBody "Failed to get recommendations") 500 cors_headers,
             swept (now_sweep w) c, calls)).
Proof.
  intros Hvalid Hmiss. unfold vibe_recommend.
  rewrite (body_valid_request _ _ _ _ _ Hvalid). split_and!.
  - intros e Hh. unfold recommend, bind at 1. rewrite clean_old_cache_run.
    run_handler. by rewrite Hmiss, Hh.
  - intros history e Hh Hnil Hs. unfold recommend, bind at 1.
    rewrite clean_old_cache_run. run_handler.
    by rewrite Hmiss, Hh, Hnil, Hs.
  - intros track_ids e Hseeds Hne Hfs.
    destruct (recommend_seeds _ _ _ _ _ Hmiss Hseeds) as (calls & _ & Hrun).
    unfold recommend. rewrite Hrun.
    destruct track_ids as [|t0 ids]; [done|].
    run_handler. rewrite Hfs. by eexists.
  - intros track_ids fs e Hseeds Hne Hfs Hsome Hrecs.
    destruct (recommend_seeds _ _ _ _ _ Hmiss Hseeds) as (calls & _ & Hrun).
    unfold recommend. rewrite Hrun.
    remember (take 5 track_ids) as seeds eqn:Hseeds5.
    destruct track_ids as [|t0 ids]; [done|].
    run_handler. rewrite Hfs. simpl.
    destruct (omap id fs) as [|f0 features]; [done|].
    rewrite Hrecs. by eexists.
Qed.

(* ===================================================================== *)
(** * The decision tree is the handler *)
(* ===================================================================== *)

Arguments outcome_from_seeds : simpl never.

Lemma recommend_outcome_eq w user_id mood c :
  recommend w user_id mood (State c []) = recommend_outcome w user_id mood c.
Proof.
  unfold recommend, recommend_outcome. unfold bind at 1.
  rewrite clean_old_cache_run. run_handler.
  destruct (swept (now_sweep w) c !! cache_key user_id mood) as [e|]; [done|].
  destruct (history_docs w user_id) as [history|e]; simpl; [|done].
  assert (forall calls track_ids,
    match track_ids with
    | [] =>
        (Returned (Response (RecommendationsBody []) 200 cors_headers),
         State (swept (now_sweep w) c) calls)
    | _ :: _ =>
        (features <-
           try_except
             (fs <- external (AudioFeaturesFetch track_ids)
                      (seed_audio_features w track_ids) ;;
              ret (omap id fs))
             (fun _ => return_ (Response (ErrorBody "Failed to get audio features")
                                  500 cors_headers)) ;;
         match features with
         | [] => return_ (Response (RecommendationsBody []) 200 cors_headers)
         | _ :: _ =>
             recs <-
               try_except
                 (external (RecommendationsFetch (take 5 track_ids))
                    (recommendations_tracks w (take 5 track_ids)))
                 (fun _ => return_ (Response (ErrorBody "Failed to get recommendations")
                                      500 cors_headers)) ;;
             rec_features <-
               try_except
                 (external (AudioFeaturesFetch (map track_id recs))
                    (rec_audio_features w (map track_id recs)))
                 (fun _ => ret (replicate (length (map track_id recs)) None)) ;;
             scored <-
               lift (score_loop (np_mean (map feature_vec features)) (mood_target mood)
                       rec_features (enumerate recs) []) ;;
             c0 <- get_cache ;;
             put_cache
               (<[cache_key user_id mood :=
                    CacheEntry
                      (RecommendationsBody
                         (take 10 (sorted PrimFloat.ltb score true scored)))
                      (now_store w)]> c0) ;;;
             return_
               (Response
                  (RecommendationsBody
                     (take 10 (sorted PrimFloat.ltb score true scored)))
                  200 cors_headers)
         end) (State (swept (now_sweep w) c) calls)
    end = outcome_from_seeds w user_id mood (swept (now_sweep w) c) calls track_ids)
    as Htail.
  { intros calls track_ids. unfold outcome_from_seeds.
    remember (take 5 track_ids) as seeds eqn:Hseeds.
    destruct track_ids as [|t0 ids]; [done|].
    run_handler.
    destruct (seed_audio_features w (t0 :: ids)) as [fs|e]; simpl; [|done].
    destruct (omap id fs) as [|f0 features]; simpl; [done|].
    destruct (recommendations_tracks w seeds) as [recs|e]; simpl; [|done].
    unfold fetched_rec_features.
    destruct (rec_audio_features w (map track_id recs)) as [rf|e]; simpl;
      destruct (score_loop _ _ _ _ _); simpl; by rewrite <- !app_assoc. }
  destruct (history_track_ids history) as [|t0 ids0] eqn:Hids; simpl.
  - destruct (search_ids w mood) as [track_ids|e]; simpl; [|done].
    rewrite <- Htail. by destruct track_ids.
  - rewrite <- Htail. done.
Qed.

Lemma vibe_recommend_close w request c user_id mood :
  valid_request request user_id mood ->
  vibe_recommend w request c = close_handler (recommend_outcome w user_id mood c).
Proof.
  intros Hvalid. unfold vibe_recommend, close_handler.
  by rewrite (body_valid_request _ _ _ _ _ Hvalid), recommend_outcome_eq.
Qed.

(** A request is answered before the cache is looked at, or it is accepted
    and the decision tree gives its run. *)
Lemma vibe_recommend_cases w request c :
  (method request = "OPTIONS" /\
   vibe_recommend w request c = (Response EmptyBody 204 preflight_headers, c, []))
  \/ (method request <> "OPTIONS" /\
      exists e, vibe_recommend w request c
                = (Response (ErrorBody e) 500 cors_headers, c, []))
  \/ (method request <> "OPTIONS" /\
      vibe_recommend w request c
      = (Response (ErrorBody "user_id required") 400 cors_headers, c, []))
  \/ (exists user_id mood,
        valid_request request user_id mood /\
        vibe_recommend w request c
        = close_handler (recommend_outcome w user_id mood c)).
Proof.
  destruct (body_runs w request (State c []))
    as [[Hm Hrun]|[[Hm [e Hrun]]|[[Hm Hrun]|(user_id & mood & Hvalid & _)]]].
  - left. split; [done|]. unfold vibe_recommend. by rewrite Hrun.
  - right; left. split; [done|]. exists e. unfold vibe_recommend. by rewrite Hrun.
  - right; right; left. split; [done|]. unfold vibe_recommend. by rewrite Hrun.
  - right; right; right. exists user_id, mood. split; [done|].
    by apply vibe_recommend_close.
Qed.

Lemma valid_request_not_preflight request user_id mood :
  valid_request request user_id mood -> method request <> "OPTIONS".
Proof. by intros [Hm _]. Qed.

Ltac tree_cases :=
  unfold recommend_outcome, outcome_from_seeds, close_handler;
  repeat case_match; simplify_eq/=.

(** X1 (answers).  Whatever the request and the world, the answer carries
    the header [Access-Control-Allow-Origin: *].  A preflight is answered
    204 with an empty body and the three preflight headers, before the body
    is read and without sweeping the cache; any other request is answered
    200, or 400 with [user_id required], or 500 with an error message, with
    that one header only. *)
Theorem response_envelope w request c :
  exists r cache' calls,
    vibe_recommend w request c = (r, cache', calls) /\
    ("Access-Control-Allow-Origin", "*") ∈ headers r /\
    ((method request = "OPTIONS" /\
      r = Response EmptyBody 204 preflight_headers /\ cache' = c /\ calls = [])
     \/ (method request <> "OPTIONS" /\
         headers r = cors_headers /\
         (status r = 200%Z
          \/ (status r = 400%Z /\ payload r = ErrorBody "user_id required")
          \/ (status r = 500%Z /\ exists m, payload r = ErrorBody m)))).
Proof.
  destruct (vibe_recommend_cases w request c)
    as [[Hm ->]|[[Hm [e ->]]|[[Hm ->]|(user_id & mood & Hvalid & ->)]]].
  - eexists _, _, _. split; [reflexivity|]. simpl.
    split; [apply list_elem_of_here|]. by left.
  - eexists _, _, _. split; [reflexivity|]. simpl.
    split; [apply list_elem_of_here|]. right. eauto 10.
  - eexists _, _, _. split; [reflexivity|]. simpl.
    split; [apply list_elem_of_here|]. right. eauto 10.
  - pose proof (valid_request_not_preflight _ _ _ Hvalid) as Hm.
    tree_cases; eexists _, _, _; (split; [reflexivity|]); simpl;
      (split; [apply list_elem_of_here|]); right; (split; [done|]);
      (split; [done|]); eauto.
Qed.

(** X2 (calls).  Whatever the request and the world, the calls made to the
    collaborators are an initial part of one fixed sequence: the history
    query for the request's user, then possibly the search by mood, then the
    feature fetch for the seed tracks, the recommendation fetch seeded with
    the first five seed tracks, and one feature fetch for the candidates.
    No request makes more than five calls, and none is made for a request
    that is not accepted. *)
Theorem call_protocol w request c :
  exists r cache' calls,
    vibe_recommend w request c = (r, cache', calls) /\
    length calls <= 5 /\
    (calls = []
     \/ exists user_id mood track_ids rec_ids,
          valid_request request user_id mood /\
          (calls `prefix_of`
             [HistoryQuery user_id; AudioFeaturesFetch track_ids;
              RecommendationsFetch (take 5 track_ids); AudioFeaturesFetch rec_ids]
           \/ calls `prefix_of`
                [HistoryQuery user_id; Search mood; AudioFeaturesFetch track_ids;
                 RecommendationsFetch (take 5 track_ids); AudioFeaturesFetch rec_ids])).
Proof.
  destruct (vibe_recommend_cases w request c)
    as [[Hm ->]|[[Hm [e ->]]|[[Hm ->]|(user_id & mood & Hvalid & ->)]]];
    try (eexists _, _, _; split; [reflexivity|]; split; [simpl; lia|by left]).
  tree_cases; eexists _, _, _; (split; [reflexivity|]); simpl;
    (split; [lia|]);
    try (by left);
    right; exists user_id, mood;
    first [ match goal with
            | |- context [AudioFeaturesFetch (?t0 :: ?ids)] => exists (t0 :: ids)
            end
          | exists [] ];
    eexists; (split; [done|]);
    first [ left; eexists; reflexivity | right; eexists; reflexivity ].
  Unshelve. all: exact [].
Qed.

(** A request keeps the payloads of the cache bounded, and answers with a
    bounded list or an error message. *)
Lemma payloads_stay_bounded w request c :
  payloads_bounded c ->
  exists r cache' calls,
    vibe_recommend w request c = (r, cache', calls) /\
    payloads_bounded cache' /\
    (status r = 200%Z ->
       exists l, payload r = RecommendationsBody l /\ length l <= 10) /\
    (status r = 400%Z \/ status r = 500%Z -> exists m, payload r = ErrorBody m).
Proof.
  intros Hc.
  assert (payloads_bounded (swept (now_sweep w) c)) as Hswept.
  { intros k e [He _]%lookup_swept. by apply (Hc k). }
  assert (forall key scored now,
    payloads_bounded
      (<[key := CacheEntry
                  (RecommendationsBody (take 10 (sorted PrimFloat.ltb score true scored)))
                  now]> (swept (now_sweep w) c))) as Hstore.
  { intros key scored now k e. rewrite lookup_insert. case_decide.
    - intros [= <-]. simpl. eexists. split; [done|]. rewrite length_take. lia.
    - apply Hswept. }
  destruct (vibe_recommend_cases w request c)
    as [[Hm ->]|[[Hm [e ->]]|[[Hm ->]|(user_id & mood & Hvalid & ->)]]];
    try (eexists _, _, _; split; [reflexivity|]; split; [done|]; simpl;
         split; [done|]; intros [?|?]; by eauto).
  tree_cases; eexists _, _, _; (split; [reflexivity|]); simpl;
    (split; [first [exact Hswept | apply Hstore]|]);
    (split;
     [ let Hs := fresh in
       intros Hs;
       first [ discriminate Hs
             | by exists []; split; [|simpl; lia]
             | eexists; split; [reflexivity|rewrite length_take; lia]
             | match goal with
               | H : swept _ _ !! _ = Some _ |- _ => by apply Hswept in H
               end ]
     | let Hs := fresh in
       intros [Hs|Hs]; first [ discriminate Hs | by eauto ] ]).
Qed.

Lemma serve_all_bounded requests c :
  payloads_bounded c -> payloads_bounded (serve_all requests c).
Proof.
  revert c. induction requests as [|[w request] requests IH]; intros c Hc; [done|].
  unfold serve_all. simpl. apply IH.
  destruct (payloads_stay_bounded w request c Hc) as (r & c' & calls & -> & Hc' & _).
  done.
Qed.

(** X3 (what the cache holds).  From the empty cache the process starts
    with, and after any sequence of requests in any worlds, every payload in
    the cache is a recommendations list of at most ten entries; so every
    answer 200, served from the cache or computed, carries such a list, and
    every answer 400 or 500 carries an error message. *)
Theorem answers_are_bounded requests w request :
  payloads_bounded (serve_all requests ∅)
  /\ exists r cache' calls,
       vibe_recommend w request (serve_all requests ∅) = (r, cache', calls) /\
       (status r = 200%Z ->
          exists l, payload r = RecommendationsBody l /\ length l <= 10) /\
       (status r = 400%Z \/ status r = 500%Z -> exists m, payload r = ErrorBody m).
Proof.
  assert (payloads_bounded (serve_all requests ∅)) as Hc.
  { apply serve_all_bounded. intros k e. by rewrite lookup_empty. }
  split; [done|].
  destruct (payloads_stay_bounded w request _ Hc) as (r & c' & calls & Hrun & _ & H200 & Herr).
  by exists r, c', calls.
Qed.

Lemma swept_subseteq now (c : gmap string cache_entry) : swept now c ⊆ c.
Proof. apply map_filter_subseteq. Qed.

(** X4 (other entries).  A request never changes an entry: an entry of the
    cache it leaves was there before, unchanged, or is the one it stored
    itself, under the key of its own [user_id] and [mood], with the payload
    it answered and the time of the store.  The cache grows by one entry at
    most. *)
Theorem cache_frame w request c :
  exists r cache' calls,
    vibe_recommend w request c = (r, cache', calls) /\
    (forall k e,
       cache' !! k = Some e ->
       c !! k = Some e
       \/ exists user_id mood,
            valid_request request user_id mood /\
            k = cache_key user_id mood /\
            status r = 200%Z /\
            e = CacheEntry (payload r) (now_store w)) /\
    size cache' <= S (size c).
Proof.
  pose proof (map_subseteq_size _ _ (swept_subseteq (now_sweep w) c)) as Hsize.
  assert (forall k e, swept (now_sweep w) c !! k = Some e -> c !! k = Some e) as Hsub.
  { by intros k e [He _]%lookup_swept. }
  destruct (vibe_recommend_cases w request c)
    as [[Hm ->]|[[Hm [e ->]]|[[Hm ->]|(user_id & mood & Hvalid & ->)]]];
    try (eexists _, _, _; split; [reflexivity|]; split; [by left|lia]).
  tree_cases; eexists _, _, _; (split; [reflexivity|]); simpl;
    try (split; [intros k e' He'; left; by apply Hsub|lia]).
  all: split.
  all: try (intros k e'; rewrite lookup_insert; case_decide;
            [intros [= <-]; right; by exists user_id, mood
            |intros He'; left; by apply Hsub]).
  all: rewrite map_size_insert_None by done; lia.
Qed.

Lemma swept_swept now1 now2 (c : gmap string cache_entry) :
  swept now2 (swept now1 c) = swept (Z.max now1 now2) c.
Proof.
  apply map_eq. intros k. apply option_eq. intros e.
  rewrite !lookup_swept. split.
  - intros [[He H1] H2]. split; [done|]. lia.
  - intros [He H]. split_and!; [done|lia..].
Qed.

(** X5 (sweeping twice).  [clean_old_cache] only deletes: what it leaves is
    part of what it found.  Run at [now1] and then at [now2] it leaves what
    one run at the later of the two times leaves; in particular a second run
    at the same time, or at an earlier one after the clock was set back,
    deletes nothing more. *)
Theorem sweep_composes now1 now2 (c : gmap string cache_entry) (log : list call) :
  exists c1 c2,
    clean_old_cache now1 (State c log) = (Normal tt, State c1 log) /\
    clean_old_cache now2 (State c1 log) = (Normal tt, State c2 log) /\
    clean_old_cache (Z.max now1 now2) (State c log) = (Normal tt, State c2 log) /\
    c2 ⊆ c1 /\ c1 ⊆ c.
Proof.
  exists (swept now1 c), (swept now2 (swept now1 c)).
  rewrite !clean_old_cache_run, swept_swept.
  split_and!; try done.
  - rewrite <- swept_swept. apply swept_subseteq.
  - apply swept_subseteq.
Qed.

Lemma miss_starts_with_history w request c user_id mood :
  valid_request request user_id mood ->
  swept (now_sweep w) c !! cache_key user_id mood = None ->
  exists r cache' calls,
    vibe_recommend w request c = (r, cache', HistoryQuery user_id :: calls).
Proof.
  intros Hvalid Hmiss. rewrite (vibe_recommend_close _ _ _ _ _ Hvalid).
  tree_cases; by eexists _, _, _.
Qed.

(** X6 (a stored result).  After a run that completed the scoring loop, the
    same request is answered from the cache, with the same response and
    without any call, as long as its sweep comes at most ten minutes after
    the store; once its sweep comes later than that, the entry is gone and
    the history is queried again. *)
Theorem stored_result_round_trip w w2 request c user_id mood track_ids fs recs scored :
  reaches_candidates w request c user_id mood track_ids fs recs ->
  score_loop (np_mean (map feature_vec (omap id fs))) (mood_target mood)
    (fetched_rec_features w recs) (enumerate recs) [] = Ok scored ->
  exists cache1 calls,
    let r := Response
               (RecommendationsBody (take 10 (sorted PrimFloat.ltb score true scored)))
               200 cors_headers in
    vibe_recommend w request c = (r, cache1, calls) /\
    ((now_sweep w2 - now_store w <= ten_minutes)%Z ->
       vibe_recommend w2 request cache1 = (r, swept (now_sweep w2) cache1, [])) /\
    ((ten_minutes < now_sweep w2 - now_store w)%Z ->
       exists r2 cache2 calls2,
         vibe_recommend w2 request cache1
         = (r2, cache2, HistoryQuery user_id :: calls2)).
Proof.
  intros Hreach Hloop.
  destruct (vibe_recommend_scoring _ _ _ _ _ _ _ _ Hreach) as (calls & Hrun).
  rewrite Hloop in Hrun. simpl in Hrun.
  destruct Hreach as (Hvalid & _).
  eexists _, calls. simpl. split; [exact Hrun|]. split.
  - intros Hfresh. unfold vibe_recommend.
    rewrite (body_valid_request _ _ _ _ _ Hvalid).
    rewrite (recommend_hit w2 user_id mood _ []
               (CacheEntry
                  (RecommendationsBody (take 10 (sorted PrimFloat.ltb score true scored)))
                  (now_store w))); [done|].
    apply lookup_swept. by rewrite lookup_insert_eq.
  - intros Hstale. apply (miss_starts_with_history _ _ _ _ _ Hvalid).
    apply eq_None_not_Some. intros [e [He Hfresh]%lookup_swept].
    rewrite lookup_insert_eq in He. simplify_eq. simpl in Hfresh. lia.
Qed.

(** A run that reaches the candidates and whose scoring loop raises is
    answered 500 with the message of the exception, and stores nothing. *)
Lemma scoring_failure w request c user_id mood track_ids fs recs :
  reaches_candidates w request c user_id mood track_ids fs recs ->
  (forall scored,
     score_loop (np_mean (map feature_vec (omap id fs))) (mood_target mood)
       (fetched_rec_features w recs) (enumerate recs) [] <> Ok scored) ->
  exists e calls,
    vibe_recommend w request c
    = (Response (ErrorBody e) 500 cors_headers, swept (now_sweep w) c, calls).
Proof.
  intros Hreach Hfail.
  destruct (vibe_recommend_scoring _ _ _ _ _ _ _ _ Hreach) as (calls & Hrun).
  destruct (score_loop _ _ _ _ _) as [scored|e] eqn:Hloop.
  - by destruct (Hfail scored).
  - by exists e, calls.
Qed.

(** X7 (too few feature entries).  When the feature fetch for the
    candidates answers, without raising, with fewer entries than there are
    candidates, [rec_features[i]] runs out of range: the request is answered
    500 and nothing is stored, where a fetch that raises gives an empty list
    and 200. *)
Theorem short_feature_answer_fails w request c user_id mood track_ids fs recs
    rec_features :
  reaches_candidates w request c user_id mood track_ids fs recs ->
  rec_audio_features w (map track_id recs) = Ok rec_features ->
  length rec_features < length recs ->
  exists e calls,
    vibe_recommend w request c
    = (Response (ErrorBody e) 500 cors_headers, swept (now_sweep w) c, calls).
Proof.
  intros Hreach Hrf Hshort. apply (scoring_failure _ _ _ _ _ _ _ _ Hreach).
  intros scored Hloop. unfold fetched_rec_features in Hloop. rewrite Hrf in Hloop.
  apply (score_loop_from_ok _ _ _ _ 0) in Hloop. rewrite drop_0 in Hloop. lia.
Qed.

Lemma score_track_fields user_vec target t f entry :
  score_track user_vec target t f = Ok entry ->
  st_name entry = track_name t /\
  head (track_artists t) = Some (st_artist entry) /\
  st_image entry = default EmptyString (head (track_images t)) /\
  st_uri entry = track_uri t /\
  st_preview_url entry = track_preview_url t.
Proof.
  unfold score_track, result_bind.
  destruct (cosine_similarity user_vec _) as [cu|]; [|done].
  destruct (cosine_similarity target _) as [ct|]; [|done].
  unfold list_index. destruct (track_artists t) as [|first_artist rest]; [done|]. simpl.
  intros [= <-]. simpl. by destruct (track_images t).
Qed.

(** X8 (a candidate without artist).  When a candidate that has a feature
    entry has an empty list of artists, [t['artists'][0]] cannot be read:
    the request is answered 500 and nothing is stored, whatever the other
    candidates are. *)
Theorem candidate_without_artist_fails w request c user_id mood track_ids fs recs t f :
  reaches_candidates w request c user_id mood track_ids fs recs ->
  (t, f) ∈ with_features recs (fetched_rec_features w recs) ->
  track_artists t = [] ->
  exists e calls,
    vibe_recommend w request c
    = (Response (ErrorBody e) 500 cors_headers, swept (now_sweep w) c, calls).
Proof.
  intros Hreach Hin Hartists. apply (scoring_failure _ _ _ _ _ _ _ _ Hreach).
  intros scored Hloop%score_loop_ok%map_result_Forall2.
  apply list_elem_of_lookup in Hin as [i Hi].
  destruct (Forall2_lookup_l _ _ _ _ _ Hloop Hi) as (entry & _ & Hentry).
  apply score_track_fields in Hentry as (_ & Hhead & _). simpl in Hhead.
  by rewrite Hartists in Hhead.
Qed.

(** X9 (the entries).  Each entry the scoring loop collects takes its name,
    uri and preview url from its candidate, the name of the candidate's
    first artist as artist, and as image the url of the candidate's first
    album image, or the empty string when the album has no image. *)
Theorem scored_entries_shape user_vec target rec_features recs scored :
  score_loop user_vec target rec_features (enumerate recs) [] = Ok scored ->
  Forall2
    (fun tf entry =>
       st_name entry = track_name tf.1 /\
       head (track_artists tf.1) = Some (st_artist entry) /\
       st_image entry = default EmptyString (head (track_images tf.1)) /\
       st_uri entry = track_uri tf.1 /\
       st_preview_url entry = track_preview_url tf.1)
    (with_features recs rec_features) scored.
Proof.
  intros Hloop%score_loop_ok%map_result_Forall2.
  eapply Forall2_impl; [exact Hloop|].
  intros [t f] entry Hentry. by apply score_track_fields in Hentry.
Qed.

(** X10 (what is read from a request).  The run depends on an accepted
    request through its [user_id] and its lowered [mood] only: two accepted
    requests with the same two values, whatever their method, the case of
    their mood and their other fields, are answered alike, leave the same
    cache and make the same calls; a request without [mood] is one with the
    mood [chill]. *)
Theorem same_user_and_mood_same_run w request1 request2 c user_id mood :
  valid_request request1 user_id mood ->
  valid_request request2 user_id mood ->
  vibe_recommend w request1 c = vibe_recommend w request2 c.
Proof.
  intros H1 H2.
  by rewrite (vibe_recommend_close _ _ _ _ _ H1), (vibe_recommend_close _ _ _ _ _ H2).
Qed.

Lemma string_append_assoc (a b c : string) : (a +:+ b) +:+ c = a +:+ b +:+ c.
Proof.
  induction a as [|ch a IH]; [done|].
  change (String ch ((a +:+ b) +:+ c) = String ch (a +:+ b +:+ c)).
  by rewrite IH.
Qed.

(** X11 (colliding keys).  The key joins [user_id] and [mood] with an
    underscore and both may contain one, so the user [u_x] with the mood [m]
    and the user [u] with the mood [x_m] have the same key: a request of the
    second is answered with the payload stored for the first. *)
Theorem colliding_keys_share_entries w request c u x m e :
  valid_request request (JStr u) (x +:+ "_" +:+ m) ->
  swept (now_sweep w) c !! cache_key (JStr (u +:+ "_" +:+ x)) m = Some e ->
  cache_key (JStr (u +:+ "_" +:+ x)) m = cache_key (JStr u) (x +:+ "_" +:+ m)
  /\ vibe_recommend w request c
     = (Response (data e) 200 cors_headers, swept (now_sweep w) c, []).
Proof.
  intros Hvalid Hhit.
  assert (cache_key (JStr (u +:+ "_" +:+ x)) m
          = cache_key (JStr u) (x +:+ "_" +:+ m)) as Hkey.
  { unfold cache_key. simpl. by rewrite !string_append_assoc. }
  split; [done|]. rewrite Hkey in Hhit.
  unfold vibe_recommend.
  by rewrite (body_valid_request _ _ _ _ _ Hvalid), (recommend_hit _ _ _ _ _ _ Hhit).
Qed.

Lemma history_track_ids_nil history :
  history_track_ids history = []
  <-> Forall (fun h => truthy (default JNull (dict_lookup h "track_id")) = false) history.
Proof.
  unfold history_track_ids. induction history as [|h history IH]; simpl.
  - split; [constructor|done].
  - destruct (truthy (default JNull (dict_lookup h "track_id"))) eqn:Ht.
    + split; [done|]. intros [Hh _]%Forall_cons. congruence.
    + rewrite IH. split; [by constructor|]. by intros [_ ?]%Forall_cons.
Qed.

(** X12 (the fallback search).  On an accepted request that misses the
    cache and whose history fetch answers: when no document of the history
    has a truthy [track_id], the second call is the search for the lowered
    mood; when one has, the second call fetches the features of all the
    track ids of the history, and no search is made. *)
Theorem search_only_without_history_ids w request c user_id mood history :
  valid_request request user_id mood ->
  swept (now_sweep w) c !! cache_key user_id mood = None ->
  history_docs w user_id = Ok history ->
  (Forall (fun h => truthy (default JNull (dict_lookup h "track_id")) = false) history /\
   exists r cache' rest,
     vibe_recommend w request c
     = (r, cache', HistoryQuery user_id :: Search mood :: rest))
  \/ (Exists (fun h => truthy (default JNull (dict_lookup h "track_id")) = true) history /\
      exists r cache' rest,
        vibe_recommend w request c
        = (r, cache',
           HistoryQuery user_id
           :: AudioFeaturesFetch (history_track_ids history) :: rest) /\
        forall q, Search q ∉ rest).
Proof.
  intros Hvalid Hmiss Hh. rewrite (vibe_recommend_close _ _ _ _ _ Hvalid).
  unfold recommend_outcome. rewrite Hmiss, Hh.
  destruct (history_track_ids history) as [|t0 ids0] eqn:Hids.
  - left. split; [by apply history_track_ids_nil|].
    unfold outcome_from_seeds, close_handler.
    repeat case_match; simplify_eq/=; by eexists _, _, _.
  - right. split.
    + apply Exists_exists.
      assert (t0 ∈ history_track_ids history) as Hin by (rewrite Hids; left).
      unfold history_track_ids in Hin.
      apply list_elem_of_In, filter_In in Hin as [Hin Ht].
      apply in_map_iff in Hin as (h & <- & Hin).
      exists h. split; [by apply list_elem_of_In|done].
    + unfold outcome_from_seeds, close_handler.
      repeat case_match; simplify_eq/=; eexists _, _, _; (split; [reflexivity|]);
        intros q Hq;
        repeat (apply elem_of_cons in Hq as [Hq|Hq]; [discriminate Hq|]);
        by apply not_elem_of_nil in Hq.
Qed.

(** X13 (the ten that are kept).  For scores that are numbers, [sorted(...)[:10]]
    keeps ten entries of the scored list, or all of them when there are
    fewer; each kept entry is an entry of the scored list, each entry of the
    scored list is kept or cut, and no entry that is cut has a greater score
    than one that is kept. *)
Theorem top_ten_dominates (scored : list scored_track) :
  good_keys score not_nan scored ->
  let ranked := sorted PrimFloat.ltb score true scored in
  length (take 10 ranked) = min 10 (length scored)
  /\ (forall a, a ∈ scored <-> a ∈ take 10 ranked \/ a ∈ drop 10 ranked)
  /\ (forall a b,
        a ∈ take 10 ranked -> b ∈ drop 10 ranked ->
        (score a <? score b)%float = false).
Proof.
  intros Hgood ranked.
  assert (ranked ≡ₚ scored) as Hperm by apply sorted_perm.
  split_and!.
  - by rewrite length_take, Hperm.
  - intros a. by rewrite <- Hperm, <- (take_drop 10 ranked) at 1; rewrite elem_of_app.
  - intros a b Ha Hb.
    pose proof (sorted_reverse_descending PrimFloat.ltb score not_nan
                  float_ltb_irrefl float_ltb_trans scored Hgood) as Hdesc.
    fold ranked in Hdesc. unfold descending in Hdesc.
    rewrite <- (take_drop 10 ranked) in Hdesc.
    by apply (StronglySorted_app_1_elem_of _ _ _ _ _ Hdesc).
Qed.

End Handler.

(* ===================================================================== *)
(** * The properties at work on a concrete runtime and world *)
(* ===================================================================== *)

Lemma example_request_valid :
  valid_request ascii_lower example_request (JStr "u1") "happy".
Proof.
  split; [discriminate|].
  exists [("user_id", JStr "u1"); ("mood", JStr "Happy")], "Happy".
  by split_and!.
Qed.

Lemma example_seeds_found w :
  history_docs w = history_docs example_world ->
  seeds_found w (JStr "u1") "happy" [JStr "seed"].
Proof.
  intros Hh. exists [[("track_id", JStr "seed")]]. split; [by rewrite Hh|].
  left. by split.
Qed.

Lemma example_reaches_candidates :
  reaches_candidates ascii_lower scalar_str example_world example_request ∅
    (JStr "u1") "happy" [JStr "seed"] [Some (AudioFeatures 0.5 0.5 0.5)]
    [example_track "a"; example_track "b"; example_track "c"].
Proof.
  split_and!; try done.
  - apply example_request_valid.
  - by apply example_seeds_found.
Qed.

Lemma failing_features_reaches_candidates :
  reaches_candidates ascii_lower scalar_str failing_features_world example_request ∅
    (JStr "u1") "happy" [JStr "seed"] [Some (AudioFeatures 0.5 0.5 0.5)]
    [example_track "a"; example_track "b"; example_track "c"].
Proof.
  split_and!; try done.
  - apply example_request_valid.
  - by apply example_seeds_found.
Qed.

Lemma example_scoring_loop :
  score_loop round_decimal cosine
    (column_mean (map feature_vec (omap id [Some (AudioFeatures 0.5 0.5 0.5)])))
    (mood_target "happy")
    [Some (AudioFeatures 0.5 0.5 0.5); None; Some (AudioFeatures 0.9 0.1 0.2)]
    (enumerate [example_track "a"; example_track "b"; example_track "c"]) []
  = Ok example_scored.
Proof. vm_compute. reflexivity. Qed.

(** C1 on [example_world]: candidates "a" and "c" are scored, "b", whose
    feature entry is [None], is left out. *)
Lemma scoring_weights_and_skips_witness :
  reaches_candidates ascii_lower scalar_str example_world example_request ∅
    (JStr "u1") "happy" [JStr "seed"] [Some (AudioFeatures 0.5 0.5 0.5)]
    [example_track "a"; example_track "b"; example_track "c"]
  /\ Forall2
       (fun tf entry =>
          st_id entry = track_id tf.1 /\
          weighted_score round_decimal cosine
            (column_mean (map feature_vec (omap id [Some (AudioFeatures 0.5 0.5 0.5)])))
            (mood_target "happy") tf.2
          = Ok (score entry))
       [(example_track "a", AudioFeatures 0.5 0.5 0.5);
        (example_track "c", AudioFeatures 0.9 0.1 0.2)]
       example_scored
  /\ exists cache' calls,
       vibe_recommend ascii_lower scalar_str round_decimal column_mean cosine
         example_world example_request ∅
       = (Response (RecommendationsBody example_scored) 200 cors_headers,
          cache', calls).
Proof.
  split; [exact example_reaches_candidates|].
  exact (scoring_weights_and_skips ascii_lower scalar_str round_decimal
           column_mean cosine example_world example_request ∅ (JStr "u1")
           "happy" [JStr "seed"] [Some (AudioFeatures 0.5 0.5 0.5)]
           [example_track "a"; example_track "b"; example_track "c"]
           [Some (AudioFeatures 0.5 0.5 0.5); None; Some (AudioFeatures 0.9 0.1 0.2)]
           example_scored example_reaches_candidates eq_refl example_scoring_loop).
Defined.

Lemma example_scores_are_numbers : good_keys score not_nan example_scored.
Proof. by repeat constructor. Qed.

(** C2 on [example_world]: two candidates are ranked, "a" before "c". *)
Lemma recommendations_sorted_stable_top10_witness :
  reaches_candidates ascii_lower scalar_str example_world example_request ∅
    (JStr "u1") "happy" [JStr "seed"] [Some (AudioFeatures 0.5 0.5 0.5)]
    [example_track "a"; example_track "b"; example_track "c"]
  /\ good_keys score not_nan example_scored
  /\ exists top cache' calls,
       vibe_recommend ascii_lower scalar_str round_decimal column_mean cosine
         example_world example_request ∅
       = (Response (RecommendationsBody top) 200 cors_headers, cache', calls) /\
       top = take 10 (sorted PrimFloat.ltb score true example_scored) /\
       sorted PrimFloat.ltb score true example_scored ≡ₚ example_scored /\
       descending PrimFloat.ltb score (sorted PrimFloat.ltb score true example_scored) /\
       (forall k, not_nan k ->
          ties PrimFloat.ltb score k (sorted PrimFloat.ltb score true example_scored)
          = ties PrimFloat.ltb score k example_scored) /\
       length top <= 10 /\
       length top <= 2.
Proof.
  split; [exact example_reaches_candidates|].
  split; [exact example_scores_are_numbers|].
  exact (recommendations_sorted_stable_top10 ascii_lower scalar_str round_decimal
           column_mean cosine example_world example_request ∅ (JStr "u1")
           "happy" [JStr "seed"] [Some (AudioFeatures 0.5 0.5 0.5)]
           [example_track "a"; example_track "b"; example_track "c"]
           example_scored example_reaches_candidates example_scoring_loop
           example_scores_are_numbers).
Defined.

Lemma example_cache_hit :
  swept (now_sweep example_world) example_cache !! cache_key scalar_str (JStr "u1") "happy"
  = Some example_entry.
Proof.
  apply lookup_swept. split; [apply lookup_singleton_eq|]. simpl. unfold ten_minutes. lia.
Qed.

(** C4 on [example_cache]: the stored payload comes back and no call is
    made. *)
Lemma cache_hit_returns_payload_without_calls_witness :
  valid_request ascii_lower example_request (JStr "u1") "happy"
  /\ swept (now_sweep example_world) example_cache
       !! cache_key scalar_str (JStr "u1") "happy" = Some example_entry
  /\ vibe_recommend ascii_lower scalar_str round_decimal column_mean cosine
       example_world example_request example_cache
     = (Response (RecommendationsBody []) 200 cors_headers,
        swept (now_sweep example_world) example_cache, []).
Proof.
  split; [exact example_request_valid|].
  split; [exact example_cache_hit|].
  exact (cache_hit_returns_payload_without_calls ascii_lower scalar_str
           round_decimal column_mean cosine example_world example_request
           example_cache (JStr "u1") "happy" example_entry
           example_request_valid example_cache_hit).
Defined.

(** C7 on [failing_features_world]: the three candidates are skipped and
    the answer is an empty list with status 200. *)
Lemma rec_features_failure_degrades_to_empty_witness :
  reaches_candidates ascii_lower scalar_str failing_features_world example_request ∅
    (JStr "u1") "happy" [JStr "seed"] [Some (AudioFeatures 0.5 0.5 0.5)]
    [example_track "a"; example_track "b"; example_track "c"]
  /\ rec_audio_features failing_features_world
       (map track_id [example_track "a"; example_track "b"; example_track "c"])
     = Err "http status: 429"
  /\ fetched_rec_features failing_features_world
       [example_track "a"; example_track "b"; example_track "c"]
     = [None; None; None]
  /\ with_features [example_track "a"; example_track "b"; example_track "c"]
       (fetched_rec_features failing_features_world
          [example_track "a"; example_track "b"; example_track "c"]) = []
  /\ exists calls,
       vibe_recommend ascii_lower scalar_str round_decimal column_mean cosine
         failing_features_world example_request ∅
       = (Response (RecommendationsBody []) 200 cors_headers,
          <[cache_key scalar_str (JStr "u1") "happy" :=
              CacheEntry (RecommendationsBody []) 2000]>
            (swept 1000 ∅),
          calls).
Proof.
  split; [exact failing_features_reaches_candidates|].
  split; [reflexivity|].
  exact (rec_features_failure_degrades_to_empty ascii_lower scalar_str
           round_decimal column_mean cosine failing_features_world
           example_request ∅ (JStr "u1") "happy" [JStr "seed"]
           [Some (AudioFeatures 0.5 0.5 0.5)]
           [example_track "a"; example_track "b"; example_track "c"]
           "http status: 429" failing_features_reaches_candidates eq_refl).
Defined.

Lemma empty_world_no_seeds : seeds_found empty_world (JStr "u1") "happy" [].
Proof. exists []. split; [done|]. right. by split. Qed.

Lemma empty_cache_miss w :
  swept (now_sweep w) ∅ !! cache_key scalar_str (JStr "u1") "happy" = None.
Proof. unfold swept. by rewrite map_filter_empty. Qed.

(** C8 on [empty_world]: no history, nothing found by the search. *)
Lemma no_seeds_or_no_features_is_empty_200_witness :
  valid_request ascii_lower example_request (JStr "u1") "happy"
  /\ swept (now_sweep empty_world) ∅ !! cache_key scalar_str (JStr "u1") "happy" = None
  /\ seeds_found empty_world (JStr "u1") "happy" []
  /\ exists calls,
       vibe_recommend ascii_lower scalar_str round_decimal column_mean cosine
         empty_world example_request ∅
       = (Response (RecommendationsBody []) 200 cors_headers,
          swept (now_sweep empty_world) ∅, calls).
Proof.
  split; [exact example_request_valid|].
  split; [exact (empty_cache_miss empty_world)|].
  split; [exact empty_world_no_seeds|].
  exact (no_seeds_or_no_features_is_empty_200 ascii_lower scalar_str
           round_decimal column_mean cosine empty_world example_request ∅
           (JStr "u1") "happy" [] example_request_valid
           (empty_cache_miss empty_world) empty_world_no_seeds
           (or_introl eq_refl)).
Defined.

(** C9 on [history_down_world]: the message of the history store is the
    [error] of the 500. *)
Lemma history_failure_is_raw_500_witness :
  valid_request ascii_lower example_request (JStr "u1") "happy"
  /\ swept (now_sweep history_down_world) ∅
       !! cache_key scalar_str (JStr "u1") "happy" = None
  /\ vibe_recommend ascii_lower scalar_str round_decimal column_mean cosine
       history_down_world example_request ∅
     = (Response (ErrorBody "503 Service Unavailable") 500 cors_headers,
        swept (now_sweep history_down_world) ∅, [HistoryQuery (JStr "u1")]).
Proof.
  split; [exact example_request_valid|].
  split; [exact (empty_cache_miss history_down_world)|].
  exact (proj1
           (history_failure_is_raw_500 ascii_lower scalar_str round_decimal
              column_mean cosine history_down_world example_request ∅
              (JStr "u1") "happy" example_request_valid
              (empty_cache_miss history_down_world))
           "503 Service Unavailable" eq_refl).
Defined.

(** C3 on a body with a text mood and no [user_id]: 400. *)
Lemma missing_user_id_400_witness :
  method text_mood_request <> "OPTIONS"
  /\ request_data text_mood_request = JDict [("mood", JStr "sad")]
  /\ truthy (default JNull (dict_lookup [("mood", JStr "sad")] "user_id")) = false
  /\ vibe_recommend ascii_lower scalar_str round_decimal column_mean cosine
       example_world text_mood_request example_cache
     = (Response (ErrorBody "user_id required") 400 cors_headers, example_cache, []).
Proof.
  assert (method text_mood_request <> "OPTIONS") as Hm by discriminate.
  split; [exact Hm|]. split; [reflexivity|]. split; [reflexivity|].
  exact (missing_user_id_400 ascii_lower scalar_str round_decimal column_mean
           cosine example_world text_mood_request example_cache
           [("mood", JStr "sad")] "sad" Hm eq_refl eq_refl eq_refl).
Defined.

(** C3 where it fails: two requests that are not preflights and carry no
    truthy [user_id], one with the body [{"mood": 5}], one with the body
    [[1]], are answered 500, not 400. *)
Lemma missing_user_id_not_always_400 :
  (method number_mood_request = "POST"
   /\ method_get (request_data number_mood_request) "user_id" JNull = Ok JNull
   /\ truthy JNull = false
   /\ vibe_recommend ascii_lower scalar_str round_decimal column_mean cosine
        example_world number_mood_request ∅
      = (Response (ErrorBody "'int' object has no attribute 'lower'") 500 cors_headers,
         ∅, []))
  /\ (method array_body_request = "POST"
      /\ request_data array_body_request = JList [JInt 1]
      /\ vibe_recommend ascii_lower scalar_str round_decimal column_mean cosine
           example_world array_body_request ∅
         = (Response (ErrorBody "'list' object has no attribute 'get'") 500 cors_headers,
            ∅, [])).
Proof. by split_and!. Qed.

(** Ranking keeps entries of equal score in the order they came in. *)
Example sorted_keeps_ties :
  map st_name
    (sorted PrimFloat.ltb score true
       [scored_entry "a" 0.5; scored_entry "b" 0.9; scored_entry "c" 0.5;
        scored_entry "d" 0.7; scored_entry "e" 0.9])
  = ["b"; "e"; "d"; "a"; "c"].
Proof. reflexivity. Qed.

(** An entry older than ten minutes is swept, the request is computed
    again, and its result takes the place of the entry. *)
Example stale_entry_is_recomputed :
  vibe_recommend ascii_lower scalar_str round_decimal column_mean cosine
    example_world example_request stale_cache
  = (Response (RecommendationsBody example_scored) 200 cors_headers,
     {[ "u1_happy" := CacheEntry (RecommendationsBody example_scored) 2000 ]},
     [HistoryQuery (JStr "u1"); AudioFeaturesFetch [JStr "seed"];
      RecommendationsFetch [JStr "seed"];
      AudioFeaturesFetch [JStr "a"; JStr "b"; JStr "c"]]).
Proof. vm_compute. reflexivity. Qed.

(** The same entry one microsecond younger is served as it is. *)
Example fresh_entry_is_served :
  vibe_recommend ascii_lower scalar_str round_decimal column_mean cosine
    example_world example_request
    {[ "u1_happy" := {| data := RecommendationsBody []; timestamp := -599999000 |} ]}
  = (Response (RecommendationsBody []) 200 cors_headers,
     {[ "u1_happy" := {| data := RecommendationsBody []; timestamp := -599999000 |} ]},
     []).
Proof. vm_compute. reflexivity. Qed.

(* ===================================================================== *)
(** * The further properties at work *)
(* ===================================================================== *)

Lemma reaches_candidates_like_example w recs :
  history_docs w = history_docs example_world ->
  seed_audio_features w = seed_audio_features example_world ->
  recommendations_tracks w (take 5 [JStr "seed"]) = Ok recs ->
  reaches_candidates ascii_lower scalar_str w example_request ∅
    (JStr "u1") "happy" [JStr "seed"] [Some (AudioFeatures 0.5 0.5 0.5)] recs.
Proof.
  intros Hh Hf Hr. split_and!.
  - apply example_request_valid.
  - apply empty_cache_miss.
  - by apply example_seeds_found.
  - done.
  - by rewrite Hf.
  - done.
  - done.
Qed.

(** X6 on [example_world]: the request asked again in the same world is
    answered from the cache. *)
Lemma stored_result_round_trip_witness :
  reaches_candidates ascii_lower scalar_str example_world example_request ∅
    (JStr "u1") "happy" [JStr "seed"] [Some (AudioFeatures 0.5 0.5 0.5)]
    [example_track "a"; example_track "b"; example_track "c"]
  /\ exists cache1 calls,
       vibe_recommend ascii_lower scalar_str round_decimal column_mean cosine
         example_world example_request ∅
       = (Response (RecommendationsBody example_scored) 200 cors_headers, cache1, calls)
       /\ ((now_sweep example_world - now_store example_world <= ten_minutes)%Z ->
           vibe_recommend ascii_lower scalar_str round_decimal column_mean cosine
             example_world example_request cache1
           = (Response (RecommendationsBody example_scored) 200 cors_headers,
              swept (now_sweep example_world) cache1, []))
       /\ ((ten_minutes < now_sweep example_world - now_store example_world)%Z ->
           exists r2 cache2 calls2,
             vibe_recommend ascii_lower scalar_str round_decimal column_mean cosine
               example_world example_request cache1
             = (r2, cache2, HistoryQuery (JStr "u1") :: calls2)).
Proof.
  split; [exact example_reaches_candidates|].
  exact (stored_result_round_trip ascii_lower scalar_str round_decimal column_mean
           cosine example_world example_world example_request ∅ (JStr "u1")
           "happy" [JStr "seed"] [Some (AudioFeatures 0.5 0.5 0.5)]
           [example_track "a"; example_track "b"; example_track "c"]
           example_scored example_reaches_candidates example_scoring_loop).
Defined.

Lemma short_features_reaches_candidates :
  reaches_candidates ascii_lower scalar_str short_features_world example_request ∅
    (JStr "u1") "happy" [JStr "seed"] [Some (AudioFeatures 0.5 0.5 0.5)]
    [example_track "a"; example_track "b"; example_track "c"].
Proof. by apply reaches_candidates_like_example. Qed.

(** X7 on [short_features_world]: one feature entry for three candidates. *)
Lemma short_feature_answer_fails_witness :
  reaches_candidates ascii_lower scalar_str short_features_world example_request ∅
    (JStr "u1") "happy" [JStr "seed"] [Some (AudioFeatures 0.5 0.5 0.5)]
    [example_track "a"; example_track "b"; example_track "c"]
  /\ rec_audio_features short_features_world
       (map track_id [example_track "a"; example_track "b"; example_track "c"])
     = Ok [Some (AudioFeatures 0.5 0.5 0.5)]
  /\ length [Some (AudioFeatures 0.5 0.5 0.5)]
     < length [example_track "a"; example_track "b"; example_track "c"]
  /\ exists e calls,
       vibe_recommend ascii_lower scalar_str round_decimal column_mean cosine
         short_features_world example_request ∅
       = (Response (ErrorBody e) 500 cors_headers,
          swept (now_sweep short_features_world) ∅, calls).
Proof.
  assert (length [Some (AudioFeatures 0.5 0.5 0.5)]
          < length [example_track "a"; example_track "b"; example_track "c"])
    as Hshort by (simpl; lia).
  split; [exact short_features_reaches_candidates|].
  split; [reflexivity|]. split; [exact Hshort|].
  exact (short_feature_answer_fails ascii_lower scalar_str round_decimal column_mean
           cosine short_features_world example_request ∅ (JStr "u1") "happy"
           [JStr "seed"] [Some (AudioFeatures 0.5 0.5 0.5)]
           [example_track "a"; example_track "b"; example_track "c"]
           [Some (AudioFeatures 0.5 0.5 0.5)]
           short_features_reaches_candidates eq_refl Hshort).
Defined.

(** What [short_features_world] answers: the first candidate is scored, the
    second one has no entry to read. *)
Example short_feature_answer_message :
  vibe_recommend ascii_lower scalar_str round_decimal column_mean cosine
    short_features_world example_request ∅
  = (Response (ErrorBody "list index out of range") 500 cors_headers, ∅,
     [HistoryQuery (JStr "u1"); AudioFeaturesFetch [JStr "seed"];
      RecommendationsFetch [JStr "seed"];
      AudioFeaturesFetch [JStr "a"; JStr "b"; JStr "c"]]).
Proof. vm_compute. reflexivity. Qed.

Lemma no_artist_reaches_candidates :
  reaches_candidates ascii_lower scalar_str no_artist_world example_request ∅
    (JStr "u1") "happy" [JStr "seed"] [Some (AudioFeatures 0.5 0.5 0.5)]
    [example_track "a"; anonymous_track].
Proof. by apply reaches_candidates_like_example. Qed.

Lemma anonymous_track_has_features :
  (anonymous_track, AudioFeatures 0.9 0.1 0.2)
  ∈ with_features [example_track "a"; anonymous_track]
      (fetched_rec_features no_artist_world [example_track "a"; anonymous_track]).
Proof. apply list_elem_of_further, list_elem_of_here. Qed.

(** X8 on [no_artist_world]: the second candidate has features and no
    artist. *)
Lemma candidate_without_artist_fails_witness :
  reaches_candidates ascii_lower scalar_str no_artist_world example_request ∅
    (JStr "u1") "happy" [JStr "seed"] [Some (AudioFeatures 0.5 0.5 0.5)]
    [example_track "a"; anonymous_track]
  /\ track_artists anonymous_track = []
  /\ exists e calls,
       vibe_recommend ascii_lower scalar_str round_decimal column_mean cosine
         no_artist_world example_request ∅
       = (Response (ErrorBody e) 500 cors_headers,
          swept (now_sweep no_artist_world) ∅, calls).
Proof.
  split; [exact no_artist_reaches_candidates|]. split; [reflexivity|].
  exact (candidate_without_artist_fails ascii_lower scalar_str round_decimal
           column_mean cosine no_artist_world example_request ∅ (JStr "u1")
           "happy" [JStr "seed"] [Some (AudioFeatures 0.5 0.5 0.5)]
           [example_track "a"; anonymous_track]
           anonymous_track (AudioFeatures 0.9 0.1 0.2)
           no_artist_reaches_candidates anonymous_track_has_features eq_refl).
Defined.

(** X9 on the loop of [example_world]. *)
Lemma scored_entries_shape_witness :
  score_loop round_decimal cosine
    (column_mean (map feature_vec (omap id [Some (AudioFeatures 0.5 0.5 0.5)])))
    (mood_target "happy")
    [Some (AudioFeatures 0.5 0.5 0.5); None; Some (AudioFeatures 0.9 0.1 0.2)]
    (enumerate [example_track "a"; example_track "b"; example_track "c"]) []
  = Ok example_scored
  /\ Forall2
       (fun tf entry =>
          st_name entry = track_name tf.1 /\
          head (track_artists tf.1) = Some (st_artist entry) /\
          st_image entry = default EmptyString (head (track_images tf.1)) /\
          st_uri entry = track_uri tf.1 /\
          st_preview_url entry = track_preview_url tf.1)
       [(example_track "a", AudioFeatures 0.5 0.5 0.5);
        (example_track "c", AudioFeatures 0.9 0.1 0.2)]
       example_scored.
Proof.
  split; [exact example_scoring_loop|].
  exact (scored_entries_shape round_decimal cosine _ _ _ _ _ example_scoring_loop).
Defined.

Lemma no_mood_request_valid :
  valid_request ascii_lower no_mood_request (JStr "u1") "chill".
Proof.
  split; [discriminate|]. exists [("user_id", JStr "u1")], "chill". by split_and!.
Qed.

Lemma capitals_request_valid :
  valid_request ascii_lower capitals_request (JStr "u1") "chill".
Proof.
  split; [discriminate|].
  exists [("limit", JInt 5); ("user_id", JStr "u1"); ("mood", JStr "CHILL")], "CHILL".
  by split_and!.
Qed.

(** X10 on a POST without mood and a GET with the mood [CHILL]. *)
Lemma same_user_and_mood_same_run_witness :
  valid_request ascii_lower no_mood_request (JStr "u1") "chill"
  /\ valid_request ascii_lower capitals_request (JStr "u1") "chill"
  /\ vibe_recommend ascii_lower scalar_str round_decimal column_mean cosine
       example_world no_mood_request ∅
     = vibe_recommend ascii_lower scalar_str round_decimal column_mean cosine
         example_world capitals_request ∅.
Proof.
  split; [exact no_mood_request_valid|]. split; [exact capitals_request_valid|].
  exact (same_user_and_mood_same_run ascii_lower scalar_str round_decimal
           column_mean cosine example_world no_mood_request capitals_request ∅
           (JStr "u1") "chill" no_mood_request_valid capitals_request_valid).
Defined.

Lemma underscore_mood_request_valid :
  valid_request ascii_lower underscore_mood_request (JStr "a") ("b" +:+ "_" +:+ "c").
Proof.
  split; [discriminate|].
  exists [("user_id", JStr "a"); ("mood", JStr "b_c")], "b_c". by split_and!.
Qed.

Lemma underscore_user_cache_hit :
  swept (now_sweep example_world) underscore_user_cache
    !! cache_key scalar_str (JStr ("a" +:+ "_" +:+ "b")) "c"
  = Some example_entry.
Proof.
  apply lookup_swept. split; [apply lookup_singleton_eq|].
  simpl. unfold ten_minutes. lia.
Qed.

(** X11 on the users [a_b] and [a]: the request of [a] for the mood [b_c]
    is answered with what the cache holds for [a_b] and the mood [c]. *)
Lemma colliding_keys_share_entries_witness :
  valid_request ascii_lower underscore_mood_request (JStr "a") ("b" +:+ "_" +:+ "c")
  /\ swept (now_sweep example_world) underscore_user_cache
       !! cache_key scalar_str (JStr ("a" +:+ "_" +:+ "b")) "c"
     = Some example_entry
  /\ cache_key scalar_str (JStr ("a" +:+ "_" +:+ "b")) "c"
     = cache_key scalar_str (JStr "a") ("b" +:+ "_" +:+ "c")
  /\ vibe_recommend ascii_lower scalar_str round_decimal column_mean cosine
       example_world underscore_mood_request underscore_user_cache
     = (Response (data example_entry) 200 cors_headers,
        swept (now_sweep example_world) underscore_user_cache, []).
Proof.
  split; [exact underscore_mood_request_valid|].
  split; [exact underscore_user_cache_hit|].
  exact (colliding_keys_share_entries ascii_lower scalar_str round_decimal
           column_mean cosine example_world underscore_mood_request
           underscore_user_cache "a" "b" "c" example_entry
           underscore_mood_request_valid underscore_user_cache_hit).
Defined.

(** X12 on [example_world], whose history has one track id. *)
Lemma search_only_without_history_ids_witness :
  valid_request ascii_lower example_request (JStr "u1") "happy"
  /\ swept (now_sweep example_world) ∅ !! cache_key scalar_str (JStr "u1") "happy" = None
  /\ history_docs example_world (JStr "u1") = Ok [[("track_id", JStr "seed")]]
  /\ ((Forall (fun h => truthy (default JNull (dict_lookup h "track_id")) = false)
         [[("track_id", JStr "seed")]] /\
       exists r cache' rest,
         vibe_recommend ascii_lower scalar_str round_decimal column_mean cosine
           example_world example_request ∅
         = (r, cache', HistoryQuery (JStr "u1") :: Search "happy" :: rest))
      \/ (Exists (fun h => truthy (default JNull (dict_lookup h "track_id")) = true)
            [[("track_id", JStr "seed")]] /\
          exists r cache' rest,
            vibe_recommend ascii_lower scalar_str round_decimal column_mean cosine
              example_world example_request ∅
            = (r, cache',
               HistoryQuery (JStr "u1")
               :: AudioFeaturesFetch (history_track_ids [[("track_id", JStr "seed")]])
               :: rest) /\
            forall q, Search q ∉ rest)).
Proof.
  split; [exact example_request_valid|].
  split; [exact (empty_cache_miss example_world)|].
  split; [reflexivity|].
  exact (search_only_without_history_ids ascii_lower scalar_str round_decimal
           column_mean cosine example_world example_request ∅ (JStr "u1") "happy"
           [[("track_id", JStr "seed")]] example_request_valid
           (empty_cache_miss example_world) eq_refl).
Defined.

(** X13 on the two entries scored in [example_world]. *)
Lemma top_ten_dominates_witness :
  good_keys score not_nan example_scored
  /\ length (take 10 (sorted PrimFloat.ltb score true example_scored))
     = min 10 (length example_scored)
  /\ (forall a,
        a ∈ example_scored
        <-> a ∈ take 10 (sorted PrimFloat.ltb score true example_scored)
            \/ a ∈ drop 10 (sorted PrimFloat.ltb score true example_scored))
  /\ (forall a b,
        a ∈ take 10 (sorted PrimFloat.ltb score true example_scored) ->
        b ∈ drop 10 (sorted PrimFloat.ltb score true example_scored) ->
        (score a <? score b)%float = false).
Proof.
  split; [exact example_scores_are_numbers|].
  exact (top_ten_dominates example_scored example_scores_are_numbers).
Defined.

(** Of twelve entries the two with the lowest scores are cut. *)
Example twelve_scored_ten_kept :
  map st_name (take 10 (sorted PrimFloat.ltb score true twelve_scored))
  = ["n12"; "n9"; "n11"; "n10"; "n8"; "n7"; "n6"; "n5"; "n4"; "n3"]
  /\ map st_name (drop 10 (sorted PrimFloat.ltb score true twelve_scored))
     = ["n2"; "n1"].
Proof. by split. Qed.
